(** * The batch cache scanner and the repository manager

    A shallow embedding of [scripts/batch_cache.py] and of the store
    operations of [scripts/repo_manager.py], with the properties their
    specification states about them.

    Python strings are modelled as [string], the UTF-8 bytes of the text:
    substring containment and the code-point order of Python coincide
    with containment and the byte order of the encodings. *)

From Stdlib Require Import ZArith NArith String Ascii List Bool Lia.
From Stdlib Require Import Sorting.Sorted Sorting.Permutation.
From stdpp Require Import base decidable list strings sorting pretty gmap.

(** ** Python strings *)

Module PyStr.

(** [bool(s)]: a string is true when it is not empty. *)
Definition truthy (s : string) : bool :=
  match s with
  | EmptyString => false
  | String _ _ => true
  end.

(** [s.startswith(pat)]. *)
Fixpoint startswith (pat s : string) : bool :=
  match pat, s with
  | EmptyString, _ => true
  | String _ _, EmptyString => false
  | String a pat', String b s' => Ascii.eqb a b && startswith pat' s'
  end.

(** [pat in s]: [pat] occurs in [s] at some offset. *)
Fixpoint contains (pat s : string) : bool :=
  startswith pat s ||
  match s with
  | EmptyString => false
  | String _ s' => contains pat s'
  end.

(** The line feed, the separator of [output.split("\n")]. *)
Definition LF : ascii := ascii_of_nat 10.

(** [s.split(sep)] for a separator of one character; the result is never
    empty, its first element is what precedes the first separator. *)
Fixpoint split (sep : ascii) (s : string) : list string :=
  match s with
  | EmptyString => [EmptyString]
  | String c s' =>
      if Ascii.eqb c sep then EmptyString :: split sep s'
      else match split sep s' with
           | h :: t => String c h :: t
           | [] => [String c EmptyString]
           end
  end.

(** [l[0]] on the result of [split], which always has an element. *)
Definition item0 (l : list string) : string := hd EmptyString l.

(** [s.lower()] on the ASCII letters; other bytes are left as they are,
    which cannot make a string equal to "y" that Python would not. *)
Definition lower_char (c : ascii) : ascii :=
  let n := nat_of_ascii c in
  if ((65 <=? n) && (n <=? 90))%nat then ascii_of_nat (n + 32) else c.

Fixpoint lower (s : string) : string :=
  match s with
  | EmptyString => EmptyString
  | String c s' => String (lower_char c) (lower s')
  end.

(** [sep.join(l)]. *)
Fixpoint join (sep : string) (l : list string) : string :=
  match l with
  | [] => EmptyString
  | [x] => x
  | x :: r => x +:+ sep +:+ join sep r
  end.

(** What "occurs in" means, independently of the scanning function. *)
Definition occurs_in (pat s : string) : Prop :=
  ∃ pre post, s = pre +:+ pat +:+ post.

(** No line feed in a string. *)
Fixpoint no_LF (s : string) : Prop :=
  match s with
  | EmptyString => True
  | String c s' => c ≠ LF ∧ no_LF s'
  end.

(** [line] is the first line of [s]: [s] starts with it, it holds no line
    feed, and it is followed by a line feed or by the end of [s]. *)
Definition first_line_of (line s : string) : Prop :=
  no_LF line ∧ (s = line ∨ ∃ rest, s = line +:+ String LF rest).

(** [c.isspace()] for an ASCII character: tab to carriage return, the
    four separators 28 to 31, and the space. *)
Definition ascii_space (c : ascii) : bool :=
  let n := nat_of_ascii c in
  (((9 <=? n) && (n <=? 13)) || ((28 <=? n) && (n <=? 32)))%nat.

(** The white space of two bytes: U+0085 and U+00A0. *)
Definition space2 (c d : ascii) : bool :=
  ((nat_of_ascii c =? 194) &&
   ((nat_of_ascii d =? 133) || (nat_of_ascii d =? 160)))%nat.

(** The white space of three bytes: U+1680, U+2000 to U+200A, U+2028,
    U+2029, U+202F, U+205F and U+3000. *)
Definition space3 (c d e : ascii) : bool :=
  let '(c, d, e) := (nat_of_ascii c, nat_of_ascii d, nat_of_ascii e) in
  (((c =? 225) && (d =? 154) && (e =? 128)) ||
   ((c =? 226) && (d =? 128) &&
    (((128 <=? e) && (e <=? 138)) || (e =? 168) || (e =? 169) || (e =? 175))) ||
   ((c =? 226) && (d =? 129) && (e =? 159)) ||
   ((c =? 227) && (d =? 128) && (e =? 128)))%nat.

(** [s.lstrip()]. *)
Fixpoint lstrip (s : string) : string :=
  match s with
  | EmptyString => s
  | String c r =>
      if ascii_space c then lstrip r
      else match r with
           | String d r2 =>
               if space2 c d then lstrip r2
               else match r2 with
                    | String e r3 => if space3 c d e then lstrip r3 else s
                    | EmptyString => s
                    end
           | EmptyString => s
           end
  end.

(** [s.rstrip()]: what is left of [s] once its longest tail of white
    space is cut. *)
Fixpoint rstrip (s : string) : string :=
  match s with
  | EmptyString => s
  | String c r => if truthy (lstrip s) then String c (rstrip r) else EmptyString
  end.

(** [s.strip()]. *)
Definition strip (s : string) : string := rstrip (lstrip s).

(** [s.split(sep, 1)] when [sep], one character, occurs in [s]: what is
    before its first occurrence and what is after; [None] when it does
    not occur. *)
Fixpoint split_first (sep : ascii) (s : string) : option (string * string) :=
  match s with
  | EmptyString => None
  | String c r =>
      if Ascii.eqb c sep then Some (EmptyString, r)
      else match split_first sep r with
           | Some (before, after) => Some (String c before, after)
           | None => None
           end
  end.

(** [s.endswith(pat)] for a pattern of one character. *)
Fixpoint endswith_char (c : ascii) (s : string) : bool :=
  match s with
  | EmptyString => false
  | String a EmptyString => Ascii.eqb a c
  | String _ r => endswith_char c r
  end.

(** [l[i]]: a negative index counts from the end, and an index out of
    range raises [IndexError], here [None]. *)
Definition index {A} (l : list A) (i : Z) : option A :=
  if (0 <=? i)%Z then l !! Z.to_nat i
  else if (- Z.of_nat (length l) <=? i)%Z then l !! Z.to_nat (Z.of_nat (length l) + i)
  else None.

End PyStr.

(** ** Paths

    A [pathlib] path is its tuple of parts; the first part of an absolute
    POSIX path is "/". *)

Definition Path := list string.

Module PyPath.

(** [str(p)]. *)
Definition str (p : Path) : string :=
  match p with
  | [] => "."
  | root :: rest =>
      if String.eqb root "/" then "/" +:+ PyStr.join "/" rest
      else PyStr.join "/" p
  end.

(** [p / name]. *)
Definition child (p : Path) (name : string) : Path := p ++ [name].

(** [p.parent]: the root and the empty path are their own parents. *)
Definition parent (p : Path) : Path :=
  match p with
  | [root] => if String.eqb root "/" then p else []
  | _ => removelast p
  end.

(** [p.relative_to(base)]: the parts of [p] below [base], [None] where
    Python raises [ValueError] because [base] is not a prefix of [p]. *)
Fixpoint relative_to (p base : Path) : option Path :=
  match base, p with
  | [], _ => Some p
  | _ :: _, [] => None
  | b :: base', x :: p' =>
      if String.eqb b x then relative_to p' base' else None
  end.

End PyPath.

(** ** The order of [sorted] on paths

    [pathlib] compares two paths by their tuples of parts, and Python
    compares tuples lexicographically and strings by code point. *)

Class CmpOrder {A : Type} (cmp : A → A → comparison) : Prop := {
  cmp_eq : ∀ x y, cmp x y = Eq ↔ x = y;
  cmp_opp : ∀ x y, cmp y x = CompOpp (cmp x y);
  cmp_lt_trans : ∀ x y z, cmp x y = Lt → cmp y z = Lt → cmp x z = Lt
}.

Section Lex.
Context {A : Type} (cmp : A → A → comparison).

(** Lexicographic comparison of two sequences. *)
Fixpoint lex_compare (l1 l2 : list A) : comparison :=
  match l1, l2 with
  | [], [] => Eq
  | [], _ :: _ => Lt
  | _ :: _, [] => Gt
  | x :: l1', y :: l2' =>
      match cmp x y with
      | Eq => lex_compare l1' l2'
      | c => c
      end
  end.
End Lex.

(** Strings by their characters, paths by their parts. *)
Definition str_compare (s t : string) : comparison :=
  lex_compare Ascii.compare (list_ascii_of_string s) (list_ascii_of_string t).

Definition path_compare (p q : Path) : comparison :=
  lex_compare str_compare p q.

(** [p <= q], the relation the sorted result is ordered by. *)
Definition path_le (p q : Path) : Prop := path_compare p q ≠ Gt.

#[global] Instance path_le_dec : RelDecision path_le.
Proof.
  intros p q. unfold path_le.
  destruct (path_compare p q); [left | left | right]; congruence.
Defined.

(** ** The outside world

    What the scripts ask of the operating system. [W] is the state of the
    world (file system, processes, git); every primitive reads it, and
    running a command may change it. *)

(** [subprocess.CompletedProcess] with [text=True]. *)
Record CompletedProcess := {
  returncode : Z;
  stdout : string;
  stderr : string
}.

(** The exceptions derived from [Exception] that a [try] block can see:
    [subprocess.TimeoutExpired], and any other one with its [str()]. *)
Inductive exn :=
| TimeoutExpired
| PyException (msg : string).

Inductive result (A : Type) :=
| Ok (a : A)
| Raise (e : exn).
Arguments Ok {A} a.
Arguments Raise {A} e.

(** What a run leaves behind: the commands it started, the directory
    changes, and its status lines (without their leading pictograph).
    The banner, the progress lines and the statistics table are
    presentation only and are not recorded. *)
Inductive Event :=
| Spawn (argv : list string)
| Chdir (dir : Path)
| Print (line : string).

#[global] Instance Event_eq_dec : EqDecision Event.
Proof. solve_decision. Defined.

Record OS (W : Type) := {
  (** [Path.exists()] *)
  os_exists : Path → W → bool;
  (** [Path.resolve()] *)
  os_resolve : Path → W → Path;
  (** [root.rglob("*.rs")], in the order the file system yields *)
  os_rglob : Path → W → list Path;
  (** [subprocess.run(argv)] outside any [try]: the command is taken to
      start (the analyzer binary has been checked to exist, git is
      installed) and only its return code is looked at *)
  os_run : list string → W → Z * W;
  (** [subprocess.run(argv, cwd=..., capture_output=True, text=True,
      timeout=120)] inside a [try] *)
  os_run_captured : list string → Path → W → result CompletedProcess * W;
  (** [os.chdir] *)
  os_chdir : Path → W → W;
  (** the text of the [ValueError] of [relative_to] *)
  os_value_error : Path → Path → string
}.
Arguments os_exists {W}.
Arguments os_resolve {W}.
Arguments os_rglob {W}.
Arguments os_run {W}.
Arguments os_run_captured {W}.
Arguments os_chdir {W}.
Arguments os_value_error {W}.

(** ** batch_cache.py *)

Module BatchCache.

(** The namespace [parse_args] returns. *)
Record Args := {
  repo_path : Path;
  limit : option Z;
  commit : bool;
  skip_cached : bool;
  exclude_tests : bool
}.

(** An option as it occurs on the command line, after [argparse] has
    recognised it; the positional [repo_path] is given apart. *)
Inductive CliOption :=
| OptLimit (n : Z)
| OptCommit
| OptSkipCached
| OptExcludeTests.

(** The defaults of [add_argument]: [None] for [--limit], [False] for a
    [store_true] flag, and the explicit [default=True] of
    [--exclude-tests]. *)
Definition default_args (p : Path) : Args :=
  {| repo_path := p; limit := None; commit := false;
     skip_cached := false; exclude_tests := true |}.

(** The action of one option: [store] for [--limit], [store_true]
    (store the constant [True]) for the flags. *)
Definition apply_option (a : Args) (o : CliOption) : Args :=
  match o with
  | OptLimit n =>
      {| repo_path := repo_path a; limit := Some n; commit := commit a;
         skip_cached := skip_cached a; exclude_tests := exclude_tests a |}
  | OptCommit =>
      {| repo_path := repo_path a; limit := limit a; commit := true;
         skip_cached := skip_cached a; exclude_tests := exclude_tests a |}
  | OptSkipCached =>
      {| repo_path := repo_path a; limit := limit a; commit := commit a;
         skip_cached := true; exclude_tests := exclude_tests a |}
  | OptExcludeTests =>
      {| repo_path := repo_path a; limit := limit a; commit := commit a;
         skip_cached := skip_cached a; exclude_tests := true |}
  end.

Definition parse_args (p : Path) (opts : list CliOption) : Args :=
  fold_left apply_option opts (default_args p).

(** [exclude_patterns] as [main] builds it. *)
Definition exclude_patterns_of (args : Args) : list string :=
  ["/target/"; "/.git/"] ++
  (if exclude_tests args then ["/tests/"; "/benches/"; "/examples/"] else []).

(** *** find_rust_files *)

Definition default_exclude_patterns : list string :=
  ["/target/"; "/.git/"; "/examples/"; "/benches/"].

(** [any(pattern in str(rust_file) for pattern in exclude_patterns)] *)
Definition excluded (exclude_patterns : list string) (rust_file : Path) : bool :=
  existsb (λ pattern, PyStr.contains pattern (PyPath.str rust_file))
          exclude_patterns.

(** The loop over the files found: skip the excluded ones, append the
    others to [rust_files]. *)
Fixpoint collect (exclude_patterns : list string) (found rust_files : list Path)
  : list Path :=
  match found with
  | [] => rust_files
  | rust_file :: rest =>
      if excluded exclude_patterns rust_file
      then collect exclude_patterns rest rust_files
      else collect exclude_patterns rest (rust_files ++ [rust_file])
  end.

(** [sorted(rust_files)]. Python's sort is a stable merge sort driven by
    the order of the paths. *)
Definition sorted (l : list Path) : list Path := merge_sort path_le l.

(** [find_rust_files] on what [rglob] yielded. *)
Definition select_files (found : list Path) (exclude_patterns : option (list string))
  : list Path :=
  let exclude_patterns := default default_exclude_patterns exclude_patterns in
  sorted (collect exclude_patterns found []).

(** *** The limit *)

(** [l[:n]]: a negative [n] counts from the end. *)
Definition slice_to {A} (n : Z) (l : list A) : list A :=
  if (0 <=? n)%Z then take (Z.to_nat n) l
  else take (length l - Z.to_nat (- n)) l.

(** [if args.limit: rust_files = rust_files[: args.limit]]: [None] and
    [0] are false. *)
Definition apply_limit (limit : option Z) (rust_files : list Path) : list Path :=
  match limit with
  | None => rust_files
  | Some n => if (n =? 0)%Z then rust_files else slice_to n rust_files
  end.

(** *** The classification of a completed invocation *)

(** Lines 100 to 112 of [analyze_file]: the triple
    [(success, cached, message)]. *)
Definition classify (result : CompletedProcess) : bool * bool * string :=
  let output := stdout result +:+ stderr result in
  if negb (returncode result =? 0)%Z then
    let error_msg :=
      if PyStr.truthy output then PyStr.item0 (PyStr.split PyStr.LF output)
      else "Unknown error" in
    (false, false, error_msg)
  else if PyStr.contains "Using cached" output then (true, true, "cached")
  else if PyStr.contains "Analysis cached" output then (true, false, "new")
  else (true, false, "analyzed").

(** How the caller reads the triple: [success] first, then [cached]. *)
Inductive InvocationOutcome :=
| Success (cached : bool)
| Failure (reason : string).

Definition outcome_of (r : bool * bool * string) : InvocationOutcome :=
  let '(success, cached, message) := r in
  if success then Success cached else Failure message.

(** *** The statistics *)

Record Stats := {
  success : nat;
  cached : nat;
  failed : nat;
  errors : list (Path * string)
}.

(** [{"success": 0, "cached": 0, "failed": 0, "errors": []}] *)
Definition new_stats : Stats :=
  {| success := 0; cached := 0; failed := 0; errors := [] |}.

(** The body of the loop of [main] after [analyze_file] has returned. *)
Definition record_outcome (stats : Stats) (file_path : Path)
           (r : bool * bool * string) : Stats :=
  let '(ok, is_cached, message) := r in
  if ok then
    if is_cached then
      {| success := success stats; cached := cached stats + 1;
         failed := failed stats; errors := errors stats |}
    else
      {| success := success stats + 1; cached := cached stats;
         failed := failed stats; errors := errors stats |}
  else
    {| success := success stats; cached := cached stats;
       failed := failed stats + 1;
       errors := errors stats ++ [(file_path, message)] |}.

(** The number of outcomes counted so far. *)
Definition counted (st : Stats) : nat := success st + cached st + failed st.

(** The loop on a sequence of files with their outcomes. *)
Definition aggregate (stats : Stats) (outcomes : list (Path * (bool * bool * string)))
  : Stats :=
  fold_left (λ st fr, record_outcome st (fst fr) (snd fr)) outcomes stats.

(** *** The files the checks of [main] look for *)

(** [get_rustassistant_path]: the binary, two levels above the script,
    under [target/debug]. *)
Definition binary_path (script_file : Path) : Path :=
  let script_dir := PyPath.parent script_file in
  let project_root := PyPath.parent script_dir in
  PyPath.child (PyPath.child (PyPath.child project_root "target") "debug")
               "rustassistant".

(** [load_env]: the [.env] file of the project. *)
Definition env_file_path (project_root : Path) : Path :=
  PyPath.child project_root ".env".

(** The message each handler of [analyze_file] returns. *)
Definition exn_message (e : exn) : string :=
  match e with
  | TimeoutExpired => "timeout"
  | PyException msg => msg
  end.

(** *** The run

    [main] and the functions it calls read and change the world, leave
    events behind, and may stop the process with [sys.exit]. *)

Section Run.
Context {W : Type} (os : OS W).

Record St := { world : W; log : list Event }.

(** A computation either goes on with a value or has called
    [sys.exit(code)]. *)
Inductive outcome (A : Type) :=
| Done (a : A)
| Exit (code : Z).
Arguments Done {A} a.
Arguments Exit {A} code.

Definition M (A : Type) : Type := St → outcome A * St.

Definition ret {A} (a : A) : M A := λ s, (Done a, s).

Definition bind {A B} (m : M A) (k : A → M B) : M B :=
  λ s, match m s with
       | (Done a, s') => k a s'
       | (Exit c, s') => (Exit c, s')
       end.

Declare Scope run_scope.
Notation "x ← y ; z" := (bind y (λ x, z))
  (at level 20, y at level 100, z at level 200, only parsing) : run_scope.
Notation "y ;; z" := (bind y (λ _, z))
  (at level 100, z at level 200, only parsing, right associativity) : run_scope.
Local Open Scope run_scope.

Definition sys_exit {A} (code : Z) : M A := λ s, (Exit code, s).

Definition emit (e : Event) : M unit :=
  λ s, (Done tt, {| world := world s; log := log s ++ [e] |}).

Definition print (line : string) : M unit := emit (Print line).

Definition path_exists (p : Path) : M bool :=
  λ s, (Done (os_exists os p (world s)), s).

Definition resolve (p : Path) : M Path :=
  λ s, (Done (os_resolve os p (world s)), s).

Definition rglob (root : Path) : M (list Path) :=
  λ s, (Done (os_rglob os root (world s)), s).

Definition chdir (dir : Path) : M unit :=
  λ s, (Done tt, {| world := os_chdir os dir (world s);
                    log := log s ++ [Chdir dir] |}).

Definition run (argv : list string) : M Z :=
  λ s, let '(rc, w') := os_run os argv (world s) in
       (Done rc, {| world := w'; log := log s ++ [Spawn argv] |}).

Definition run_captured (argv : list string) (cwd : Path)
  : M (result CompletedProcess) :=
  λ s, let '(r, w') := os_run_captured os argv cwd (world s) in
       (Done r, {| world := w'; log := log s ++ [Spawn argv] |}).

(** The exit status of the process: [0] when [main] returns. *)
Definition exit_status {A} (r : outcome A * St) : Z :=
  match fst r with
  | Done _ => 0%Z
  | Exit code => code
  end.

Definition find_rust_files (repo_path : Path) (exclude_patterns : option (list string))
  : M (list Path) :=
  found ← rglob repo_path;
  ret (select_files found exclude_patterns).

Definition get_rustassistant_path (script_file : Path) : M Path :=
  let binary := binary_path script_file in
  found ← path_exists binary;
  if negb found then
    print ("Error: rustassistant binary not found at " +:+ PyPath.str binary);;
    print "   Run: cargo build --bin rustassistant";;
    sys_exit 1
  else ret binary.

(** [load_env]: the variables it reads are handed to the commands and
    have no part in the control flow; only the check of the file does. *)
Definition load_env (project_root : Path) : M unit :=
  let env_file := env_file_path project_root in
  found ← path_exists env_file;
  if negb found then
    print ("Error: .env file not found at " +:+ PyPath.str env_file);;
    sys_exit 1
  else ret tt.

(** The command line of one analysis. *)
Definition analyze_argv (rustassistant rel_path : Path) : list string :=
  [PyPath.str rustassistant; "refactor"; "analyze"; PyPath.str rel_path].

(** [analyze_file]: the [try] block with its two handlers. *)
Definition analyze_file (rustassistant repo_path file_path : Path)
  : M (bool * bool * string) :=
  match PyPath.relative_to file_path repo_path with
  | None => ret (false, false, os_value_error os file_path repo_path)
  | Some rel_path =>
      r ← run_captured (analyze_argv rustassistant rel_path) repo_path;
      match r with
      | Ok result => ret (classify result)
      | Raise TimeoutExpired => ret (false, false, "timeout")
      | Raise (PyException e) => ret (false, false, e)
      end
  end.

(** The loop of [main] over the files, [stats] being updated in place. *)
Fixpoint dispatch (rustassistant repo_path : Path) (rust_files : list Path)
         (stats : Stats) : M Stats :=
  match rust_files with
  | [] => ret stats
  | file_path :: rest =>
      r ← analyze_file rustassistant repo_path file_path;
      dispatch rustassistant repo_path rest (record_outcome stats file_path r)
  end.

Definition commit_msg (total : nat) (stats : Stats) : string :=
  "chore: update rustassistant cache" +:+ String PyStr.LF (String PyStr.LF
  ("- Scanned " +:+ pretty total +:+ " Rust files" +:+ String PyStr.LF
  ("- Cached " +:+ pretty (success stats) +:+ " new analyses" +:+ String PyStr.LF
  ("- " +:+ pretty (failed stats) +:+ " errors encountered" +:+ String PyStr.LF
  "- Generated by batch_cache.py")))).

Definition git_rev_parse : list string := ["git"; "rev-parse"; "--git-dir"].
Definition git_add : list string := ["git"; "add"; ".rustassistant/"].
Definition git_diff : list string := ["git"; "diff"; "--staged"; "--quiet"].
Definition git_commit (msg : string) : list string := ["git"; "commit"; "-m"; msg].

(** The commit step, lines 264 to 288 of [main]. *)
Definition commit_step (args : Args) (repo_path : Path) (total : nat) (stats : Stats)
  : M unit :=
  if commit args && (0 <? success stats)%nat then
    print "Committing cache files...";;
    chdir repo_path;;
    rc ← run git_rev_parse;
    if (rc =? 0)%Z then
      run git_add;;
      rc ← run git_diff;
      if negb (rc =? 0)%Z then
        run (git_commit (commit_msg total stats));;
        print "Cache committed"
      else print "No changes to commit"
    else print "Not a git repository, skipping commit"
  else ret tt.

(** What [main] does once the files are known: the early return on an
    empty list, the loop, the status command, the commit step and the
    exit code. *)
Definition process (args : Args) (rustassistant repo_path : Path)
           (rust_files : list Path) : M unit :=
  let total := length rust_files in
  if (total =? 0)%nat then print "No files to analyze"
  else
    stats ← dispatch rustassistant repo_path rust_files new_stats;
    run [PyPath.str rustassistant; "cache"; "status"; "--path"; PyPath.str repo_path];;
    commit_step args repo_path total stats;;
    if (0 <? failed stats)%nat then sys_exit 1
    else print "All files processed successfully!";; sys_exit 0.

(** What [main] does before that: the three checks, the cache directory,
    the discovery and the limit. *)
Definition prepare (script_file : Path) (args : Args) : M (Path * Path * list Path) :=
  repo_path ← resolve (repo_path args);
  found ← path_exists repo_path;
  if negb found then
    print ("Error: Repository not found at " +:+ PyPath.str repo_path);;
    sys_exit 1
  else
    rustassistant ← get_rustassistant_path script_file;
    let project_root := PyPath.parent (PyPath.parent (PyPath.parent rustassistant)) in
    load_env project_root;;
    let cache_dir := PyPath.child repo_path ".rustassistant" in
    found ← path_exists cache_dir;
    (if negb found then
       run [PyPath.str rustassistant; "cache"; "init"; "--path"; PyPath.str repo_path];;
       ret tt
     else ret tt);;
    rust_files ← find_rust_files repo_path (Some (exclude_patterns_of args));
    ret (rustassistant, repo_path, apply_limit (limit args) rust_files).

(** The preconditions of a run, as [main] checks them in the world it
    starts in: the repository, the analyzer binary and the [.env] file
    exist. *)
Definition preconditions (script_file : Path) (args : Args) (w : W) : bool :=
  let binary := binary_path script_file in
  os_exists os (os_resolve os (repo_path args) w) w &&
  os_exists os binary w &&
  os_exists os (env_file_path (PyPath.parent (PyPath.parent (PyPath.parent binary)))) w.

Definition main (script_file : Path) (args : Args) : M unit :=
  ready ← prepare script_file args;
  let '(rustassistant, repo_path, rust_files) := ready in
  process args rustassistant repo_path rust_files.

End Run.

Arguments Done {A} a.
Arguments Exit {A} code.

(** *** The variables of [load_env] *)

(** One line of the [.env] file: stripped; skipped when empty, when it is
    a comment or when it has no "="; otherwise split at its first "=",
    and both sides stripped. *)
Definition parse_env_line (line : string) : option (string * string) :=
  let line := PyStr.strip line in
  if PyStr.truthy line && negb (PyStr.startswith "#" line) then
    if PyStr.contains "=" line then
      match PyStr.split_first "=" line with
      | Some (key, value) => Some (PyStr.strip key, PyStr.strip value)
      | None => None
      end
    else None
  else None.

(** [env[key.strip()] = value.strip()] *)
Definition env_line (env : gmap string string) (line : string) : gmap string string :=
  match parse_env_line line with
  | Some (key, value) => <[key := value]> env
  | None => env
  end.

(** The dictionary [load_env] returns, from [os.environ] and the lines of
    the file: lines 61 to 75. *)
Definition load_env_vars (environ : gmap string string) (lines : list string)
  : gmap string string :=
  let env := fold_left env_line lines environ in
  match env !! "DATABASE_URL" with
  | None => <["DATABASE_URL" := "sqlite:data/rustassistant.db"]> env
  | Some _ => env
  end.

(** *** The errors of the report *)



(** The command [analyze_file] starts for a file: none when the
    relative path cannot be formed. *)
Definition started (rustassistant repo_path file_path : Path) : list Event :=
  match PyPath.relative_to file_path repo_path with
  | Some rel_path =>
      [Spawn [PyPath.str rustassistant; "refactor"; "analyze"; PyPath.str rel_path]]
  | None => []
  end.

(** The events of [main] once the files are known, when the commit step
    does nothing. *)
Definition quiet_trace (rustassistant repo_path : Path) (rust_files : list Path)
           (stats : Stats) : list Event :=
  match rust_files with
  | [] => [Print "No files to analyze"]
  | _ =>
      concat (map (started rustassistant repo_path) rust_files) ++
      [Spawn [PyPath.str rustassistant; "cache"; "status"; "--path";
              PyPath.str repo_path]] ++
      (if (0 <? failed stats)%nat then []
       else [Print "All files processed successfully!"])
  end.

End BatchCache.

(** ** repo_manager.py *)

Module RepoManager.

(** A row of the table [repositories]; [path] and [name] are plain
    strings here, the flag is SQLite's 0 or 1. *)
Record Repository := {
  id : string;
  path : string;
  name : string;
  status : string;
  created_at : Z;
  updated_at : Z;
  auto_scan_enabled : bool;
  scan_interval_minutes : Z;
  last_scan_check : option Z;
  last_analyzed : option Z
}.

(** The table, in insertion order. *)
Definition Store := list Repository.

(** [log_info], [log_success], [log_warning], [log_error]. *)
Inductive Level := INFO | SUCCESS | WARNING | ERROR.

Definition LogLine : Type := Level * string.

(** [log_warning(f"Repository already exists: {name}")], the line of a
    rejected duplicate. *)
Definition already_exists (n : string) : LogLine :=
  (WARNING, "Repository already exists: " +:+ n).

(** [log_error(f"Repository not found: {name}")], the line of an update
    that matched no row. *)
Definition not_found (n : string) : LogLine :=
  (ERROR, "Repository not found: " +:+ n).

(** [SELECT COUNT( * ) FROM repositories WHERE path = ?] *)
Definition count_path (store : Store) (p : string) : nat :=
  length (List.filter (λ r, String.eqb (path r) p) store).

(** The rows an [UPDATE ... WHERE name = ?] touches. *)
Definition count_name (store : Store) (n : string) : nat :=
  length (List.filter (λ r, String.eqb (name r) n) store).

(** What [add_repo] gets from outside: [os.path.exists(path)], the answer
    typed at the prompt, the fresh identifier, the clock, and the error
    of the [INSERT] when the database raises one. *)
Record AddEnv := {
  fs_exists : bool;
  answer : string;
  new_uuid : string;
  add_now : Z;
  insert_error : option string
}.

(** The row of the [INSERT]: active, auto-scan off, 60 minutes. *)
Definition new_row (p n : string) (env : AddEnv) : Repository :=
  {| id := new_uuid env; path := p; name := n; status := "active";
     created_at := add_now env; updated_at := add_now env;
     auto_scan_enabled := false; scan_interval_minutes := 60;
     last_scan_check := None; last_analyzed := None |}.

(** [add_repo] from the duplicate check on. *)
Definition add_checked (store : Store) (p n : string) (env : AddEnv)
           (log : list LogLine) : bool * list LogLine * Store :=
  if (0 <? count_path store p)%nat then
    (false, log ++ [already_exists n], store)
  else
    match insert_error env with
    | None =>
        (true, log ++ [(SUCCESS, "Added repository: " +:+ n)],
         store ++ [new_row p n env])
    | Some e =>
        (false, log ++ [(ERROR, "Failed to add repository: " +:+ e)], store)
    end.

(** [RepoManager.add_repo]: the returned flag, the lines logged and the
    table afterwards. *)
Definition add_repo (store : Store) (p n : string) (env : AddEnv)
  : bool * list LogLine * Store :=
  if negb (fs_exists env) then
    let log := [(WARNING, "Path does not exist: " +:+ p)] in
    if negb (String.eqb (PyStr.lower (answer env)) "y") then
      (false, log ++ [(INFO, "Skipping...")], store)
    else add_checked store p n env log
  else add_checked store p n env [].

Definition set_scan (on : bool) (interval now : Z) (r : Repository) : Repository :=
  {| id := id r; path := path r; name := name r; status := status r;
     created_at := created_at r; updated_at := now;
     auto_scan_enabled := on; scan_interval_minutes := interval;
     last_scan_check := last_scan_check r; last_analyzed := last_analyzed r |}.

(** [RepoManager.enable_scan]; [db_error] is the error of the [UPDATE]
    when the database raises one. *)
Definition enable_scan (store : Store) (n : string) (interval now : Z)
           (db_error : option string) : bool * list LogLine * Store :=
  match db_error with
  | Some e => (false, [(ERROR, "Failed to enable scan: " +:+ e)], store)
  | None =>
      let store' :=
        map (λ r, if String.eqb (name r) n then set_scan true interval now r else r)
            store in
      if (0 <? count_name store n)%nat then
        (true, [(SUCCESS, "Enabled auto-scan for " +:+ n +:+ " (interval: "
                          +:+ pretty interval +:+ "m)")], store')
      else (false, [not_found n], store')
  end.

(** [RepoManager.disable_scan]: the interval is kept. *)
Definition disable_scan (store : Store) (n : string) (now : Z)
           (db_error : option string) : bool * list LogLine * Store :=
  match db_error with
  | Some e => (false, [(ERROR, "Failed to disable scan: " +:+ e)], store)
  | None =>
      let store' :=
        map (λ r, if String.eqb (name r) n
                  then set_scan false (scan_interval_minutes r) now r else r)
            store in
      if (0 <? count_name store n)%nat then
        (true, [(SUCCESS, "Disabled auto-scan for " +:+ n)], store')
      else (false, [not_found n], store')
  end.

(** Modelled from the spec: the Eligibility Scheduler. The sources hold
    the columns it reads ([auto_scan_enabled], [scan_interval_minutes],
    [last_scan_check]) but no function that decides which repositories
    are due. A record is due iff auto-scan is enabled and its last check
    is unset or at least [interval_minutes * 60] seconds before [now]. *)
Definition is_due (now : Z) (r : Repository) : bool :=
  auto_scan_enabled r &&
  match last_scan_check r with
  | None => true
  | Some checked => (scan_interval_minutes r * 60 <=? now - checked)%Z
  end.

(** Modelled from the spec: [dueForScan(records, now)], the records that
    are due, in their order; nothing is changed. *)
Definition dueForScan (records : list Repository) (now : Z) : list Repository :=
  List.filter (is_due now) records.

(** *** Listing, statistics and cleanup *)

(** [path LIKE 'prefix%']: SQLite's [LIKE] ignores the case of the ASCII
    letters. *)
Definition like_prefix (prefix s : string) : bool :=
  PyStr.startswith (PyStr.lower prefix) (PyStr.lower s).

(** [WHERE path LIKE '/home/%' OR path LIKE '~/%'] *)
Definition is_local (r : Repository) : bool :=
  like_prefix "/home/" (path r) || like_prefix "~/" (path r).

(** The [WHERE] clause of [list_repos]: with [active_only] the text
    [" AND status = 'active'"] is appended to the query, and [AND] binds
    tighter than the [OR] before it. *)
Definition listed (active_only : bool) (r : Repository) : bool :=
  if active_only then
    like_prefix "/home/" (path r) ||
    (like_prefix "~/" (path r) && String.eqb (status r) "active")
  else is_local r.

(** [ORDER BY name]: names compare as byte strings. *)
Definition name_le (r1 r2 : Repository) : Prop :=
  str_compare (name r1) (name r2) ≠ Gt.

#[global] Instance name_le_dec : RelDecision name_le.
Proof.
  intros r1 r2. unfold name_le.
  destruct (str_compare (name r1) (name r2)); [left | left | right]; congruence.
Defined.

(** [RepoManager.list_repos]. Rows of the same name come in an order
    SQLite does not fix; here they keep the order of the table. *)
Definition list_repos (store : Store) (active_only : bool) : list Repository :=
  merge_sort name_le (List.filter (listed active_only) store).

(** The dictionary of [get_stats]; [SUM] over no row is [NULL]. *)
Record RepoStats := {
  total : nat;
  scanning : option nat;
  active : option nat
}.

(** [SUM(CASE WHEN cond THEN 1 ELSE 0 END)] *)
Definition sum_case (cond : Repository → bool) (rows : list Repository) : option nat :=
  match rows with
  | [] => None
  | _ => Some (length (List.filter cond rows))
  end.

(** [RepoManager.get_stats]. *)
Definition get_stats (store : Store) : RepoStats :=
  let rows := List.filter is_local store in
  {| total := length rows;
     scanning := sum_case auto_scan_enabled rows;
     active := sum_case (λ r, String.eqb (status r) "active") rows |}.

(** [RepoManager.cleanup_invalid_repos]: the count returned, the lines
    logged and the table afterwards; [db_error] is the error of the
    [DELETE] when the database raises one. *)
Definition cleanup_invalid_repos (store : Store) (db_error : option string)
  : nat * list LogLine * Store :=
  match db_error with
  | Some e => (0, [(ERROR, "Failed to cleanup: " +:+ e)], store)
  | None =>
      let kept := List.filter (λ r, negb (like_prefix "http" (path r))) store in
      let count := length store - length kept in
      (count,
       if (0 <? count)%nat
       then [(SUCCESS, "Removed " +:+ pretty count +:+ " invalid repositories")]
       else [],
       kept)
  end.

(** *** Adding the directories of a directory *)

(** [os.path.join(a, b)]. *)
Definition path_join (a b : string) : string :=
  if PyStr.startswith "/" b then b
  else if negb (PyStr.truthy a) || PyStr.endswith_char "/" a then a +:+ b
  else a +:+ "/" +:+ b.

(** An entry of [os.listdir(base_path)]: its name, whether
    [os.path.isdir] holds of it, and what [add_repo] gets from outside
    when it is called for it. *)
Record DirEntry := {
  item : string;
  is_dir : bool;
  add_env : AddEnv
}.

(** The loop of [bulk_add_from_directory]: the number added so far, the
    lines logged and the table. *)
Fixpoint bulk_add_loop (base_path : string) (entries : list DirEntry)
         (added : nat) (log : list LogLine) (store : Store)
  : nat * list LogLine * Store :=
  match entries with
  | [] => (added, log, store)
  | e :: rest =>
      let full_path := path_join base_path (item e) in
      if is_dir e then
        let '(ok, lines, store') := add_repo store full_path (item e) (add_env e) in
        bulk_add_loop base_path rest (if ok then added + 1 else added)
                      (log ++ lines) store'
      else bulk_add_loop base_path rest added log store
  end.

(** [RepoManager.bulk_add_from_directory]; [base_exists] is
    [os.path.exists(base_path)]. *)
Definition bulk_add_from_directory (store : Store) (base_path : string)
           (base_exists : bool) (entries : list DirEntry)
  : nat * list LogLine * Store :=
  if negb base_exists then
    (0, [(ERROR, "Directory not found: " +:+ base_path)], store)
  else bulk_add_loop base_path entries 0 [] store.

(** *** The queue *)

(** A row of the table [queue]; the texts that may be missing are
    options. *)
Record QueueItem := {
  q_title : string;
  q_description : option string;
  q_priority : Z;
  q_stage : string;
  q_repo_path : option string;
  q_file_path : option string;
  q_created_at : Z
}.

(** [ORDER BY priority, created_at] *)
Definition queue_le (a b : QueueItem) : Prop :=
  (q_priority a < q_priority b)%Z ∨
  (q_priority a = q_priority b ∧ q_created_at a ≤ q_created_at b)%Z.

#[global] Instance queue_le_dec : RelDecision queue_le.
Proof. intros a b. unfold queue_le. apply _. Defined.



Definition priority_labels : list string := ["CRITICAL"; "HIGH"; "MEDIUM"; "LOW"].

(** The label of [generate_task_summary]:
    [["CRITICAL", "HIGH", "MEDIUM", "LOW"][min(priority - 1, 3)]]. *)
Definition summary_label (priority : Z) : option string :=
  PyStr.index priority_labels (Z.min (priority - 1) 3).

(** The label of [print_queue]: [priority_labels.get(priority, "UNKNOWN")]
    on the dictionary of the four priorities. *)
Definition queue_label (priority : Z) : string :=
  if (priority =? 1)%Z then "CRITICAL"
  else if (priority =? 2)%Z then "HIGH"
  else if (priority =? 3)%Z then "MEDIUM"
  else if (priority =? 4)%Z then "LOW"
  else "UNKNOWN".







End RepoManager.

(** ** A small world to run the scripts in

    A project with three Rust files, one of them under [target/]. The
    state of the world is the number of analyses started so far; the
    n-th analysis ends as the n-th element of [answers] says, and a fresh
    analysis after the list is used up. Every path exists; [git diff]
    reports staged changes. *)

Module Demo.

Definition script : Path := ["/"; "opt"; "rustassistant"; "scripts"; "batch_cache.py"].
Definition repo : Path := ["/"; "home"; "dev"; "proj"].
Definition main_rs : Path := repo ++ ["src"; "main.rs"].
Definition lib_rs : Path := repo ++ ["src"; "lib.rs"].
Definition build_rs : Path := repo ++ ["target"; "debug"; "build.rs"].

Definition found : list Path := [main_rs; build_rs; lib_rs].

Definition fresh : CompletedProcess :=
  {| returncode := 0; stdout := "Analysis cached for src/lib.rs"; stderr := "" |}.

Definition hit : CompletedProcess :=
  {| returncode := 0; stdout := "Using cached analysis"; stderr := "" |}.

Definition broken : CompletedProcess :=
  {| returncode := 101;
     stdout := "";
     stderr := "error: cannot parse" +:+ String PyStr.LF "  at line 3" |}.

Definition os (answers : list (result CompletedProcess)) : OS nat :=
  {| os_exists := λ _ _, true;
     os_resolve := λ p _, p;
     os_rglob := λ _ _, found;
     os_run := λ argv w,
       (if decide (argv = ["git"; "diff"; "--staged"; "--quiet"]) then 1%Z else 0%Z, w);
     os_run_captured := λ _ _ w, (nth w answers (Ok fresh), S w);
     os_chdir := λ _ w, w;
     os_value_error := λ p base,
       "'" +:+ PyPath.str p +:+ "' is not in the subpath of '" +:+ PyPath.str base +:+ "'" |}.

Definition start : BatchCache.St := {| BatchCache.world := 0; BatchCache.log := [] |}.

(** A table with one repository, and an operator who declines to add a
    path that is not on the disk. *)
Definition fks : RepoManager.Repository :=
  {| RepoManager.id := "7d9f1c62"; RepoManager.path := "/home/dev/fks";
     RepoManager.name := "fks"; RepoManager.status := "active";
     RepoManager.created_at := 1700000000; RepoManager.updated_at := 1700000000;
     RepoManager.auto_scan_enabled := true;
     RepoManager.scan_interval_minutes := 60;
     RepoManager.last_scan_check := Some 1700000000%Z;
     RepoManager.last_analyzed := None |}.

Definition store : RepoManager.Store := [fks].

Definition declines : RepoManager.AddEnv :=
  {| RepoManager.fs_exists := false; RepoManager.answer := "n";
     RepoManager.new_uuid := "0b0e4a11"; RepoManager.add_now := 1700003600;
     RepoManager.insert_error := None |}.

Definition on_disk : RepoManager.AddEnv :=
  {| RepoManager.fs_exists := true; RepoManager.answer := "";
     RepoManager.new_uuid := "0b0e4a11"; RepoManager.add_now := 1700003600;
     RepoManager.insert_error := None |}.

(** The same world with one path missing. *)
Definition os_missing (missing : Path) (answers : list (result CompletedProcess))
  : OS nat :=
  {| os_exists := λ p _, bool_decide (p ≠ missing);
     os_resolve := os_resolve (os answers);
     os_rglob := os_rglob (os answers);
     os_run := os_run (os answers);
     os_run_captured := os_run_captured (os answers);
     os_chdir := os_chdir (os answers);
     os_value_error := os_value_error (os answers) |}.

(** The lines of a [.env] file. *)
Definition env_lines : list string :=
  ["# database" +:+ String PyStr.LF "";
   "DATABASE_URL = sqlite:old.db" +:+ String PyStr.LF "";
   "DATABASE_URL=sqlite:data/ra.db?mode=rwc" +:+ String PyStr.LF "";
   String PyStr.LF "";
   "XAI_API_KEY=abc" +:+ String PyStr.LF ""].

End Demo.

(** * Properties *)

(** ** Strings *)

Section StringFacts.
Import PyStr.

Lemma append_cons (c : ascii) (a b : string) :
  String c a +:+ b = String c (a +:+ b).
Proof. reflexivity. Qed.

Lemma append_nil_l (s : string) : "" +:+ s = s.
Proof. reflexivity. Qed.


Lemma startswith_spec (pat s : string) :
  startswith pat s = true ↔ ∃ post, s = pat +:+ post.
Proof.
  revert s. induction pat as [|a pat IH]; intros s; simpl.
  - split; [intros _; now exists s | reflexivity].
  - destruct s as [|b s].
    + split; [discriminate | intros [post H]; discriminate].
    + rewrite andb_true_iff, Ascii.eqb_eq, IH. split.
      * intros [-> [post ->]]. now exists post.
      * intros [post H]. rewrite append_cons in H. injection H as -> ->.
        split; [reflexivity | now exists post].
Qed.

(** The scan decides exactly "occurs in". *)
Lemma contains_spec (pat s : string) :
  contains pat s = true ↔ occurs_in pat s.
Proof.
  unfold occurs_in. induction s as [|c s IH]; simpl.
  - rewrite orb_false_r, startswith_spec. split.
    + intros [post H]. exists "", post. exact H.
    + intros [pre [post H]]. destruct pre.
      * now exists post.
      * discriminate.
  - rewrite orb_true_iff, startswith_spec, IH. split.
    + intros [[post H] | [pre [post H]]].
      * exists "", post. exact H.
      * exists (String c pre), post. rewrite append_cons. now rewrite H.
    + intros [pre [post H]]. destruct pre as [|x pre].
      * left. now exists post.
      * right. rewrite append_cons in H. injection H as -> ->. now exists pre, post.
Qed.

Lemma split_nonempty (sep : ascii) (s : string) : split sep s ≠ [].
Proof.
  induction s as [|c s IH]; simpl; [discriminate |].
  destruct (Ascii.eqb c sep); [discriminate |].
  destruct (split sep s); discriminate.
Qed.

(** [split("\n")[0]] is the first line. *)
Lemma split_first_line (s : string) : first_line_of (item0 (split LF s)) s.
Proof.
  unfold first_line_of, item0. induction s as [|c s [Hno Hs]]; simpl.
  - split; [exact I | now left].
  - destruct (Ascii.eqb c LF) eqn:Hc; simpl.
    + apply Ascii.eqb_eq in Hc. subst c. split; [exact I |]. right. now exists s.
    + apply Ascii.eqb_neq in Hc.
      destruct (split LF s) as [|h t] eqn:Hsp; [now apply split_nonempty in Hsp |].
      simpl in *. split; [now split |].
      destruct Hs as [-> | [rest ->]]; [now left | right; now exists rest].
Qed.

End StringFacts.

(** ** The order of paths *)

Section OrderFacts.

#[global] Instance ascii_cmp_order : CmpOrder Ascii.compare.
Proof.
  split.
  - intros x y. split; [apply Ascii.compare_eq_iff | intros ->].
    unfold Ascii.compare. apply N.compare_refl.
  - intros x y. apply Ascii.compare_antisym.
  - intros x y z. unfold Ascii.compare. rewrite !N.compare_lt_iff. lia.
Qed.

Lemma cmp_refl {A} (cmp : A → A → comparison) `{!CmpOrder cmp} (x : A) :
  cmp x x = Eq.
Proof. now apply cmp_eq. Qed.

#[global] Instance lex_cmp_order {A} (cmp : A → A → comparison) `{!CmpOrder cmp} :
  CmpOrder (lex_compare cmp).
Proof.
  split.
  - induction x as [|a x IH]; intros [|b y]; simpl;
      try (split; [discriminate | discriminate]); [tauto |].
    destruct (cmp a b) eqn:E.
    + apply cmp_eq in E. subst b. rewrite IH. split; congruence.
    + split; [discriminate |]. intros [= -> _]. rewrite cmp_refl in E; [discriminate | assumption].
    + split; [discriminate |]. intros [= -> _]. rewrite cmp_refl in E; [discriminate | assumption].
  - induction x as [|a x IH]; intros [|b y]; simpl; try reflexivity.
    rewrite (cmp_opp a b). destruct (cmp a b); simpl; auto.
  - induction x as [|a x IH]; intros [|b y] [|c z]; simpl; try discriminate; try reflexivity.
    destruct (cmp a b) eqn:Eab; try discriminate.
    + apply cmp_eq in Eab. subst b. destruct (cmp a c); try discriminate; eauto.
    + intros _. destruct (cmp b c) eqn:Ebc; try discriminate.
      * apply cmp_eq in Ebc. subst c. now rewrite Eab.
      * now rewrite (cmp_lt_trans a b c Eab Ebc).
Qed.

Lemma list_ascii_of_string_inj (s t : string) :
  list_ascii_of_string s = list_ascii_of_string t → s = t.
Proof.
  intros H. rewrite <- (string_of_list_ascii_of_string s),
    <- (string_of_list_ascii_of_string t). now rewrite H.
Qed.

#[global] Instance str_cmp_order : CmpOrder str_compare.
Proof.
  unfold str_compare. split.
  - intros x y. rewrite cmp_eq. split; [apply list_ascii_of_string_inj | now intros ->].
  - intros x y. apply cmp_opp.
  - intros x y z. apply cmp_lt_trans.
Qed.

#[global] Instance path_cmp_order : CmpOrder path_compare.
Proof. exact (lex_cmp_order str_compare). Qed.

#[global] Instance path_le_total : Total path_le.
Proof.
  intros p q. unfold path_le. rewrite (cmp_opp (cmp:=path_compare) p q).
  destruct (path_compare p q); simpl; [left | left | right]; congruence.
Qed.

#[global] Instance path_le_antisym : AntiSymm (=) path_le.
Proof.
  intros p q. unfold path_le. rewrite (cmp_opp (cmp:=path_compare) p q).
  destruct (path_compare p q) eqn:E; simpl; try congruence.
  intros _ _. now apply (cmp_eq (cmp:=path_compare)).
Qed.

#[global] Instance path_le_trans : Transitive path_le.
Proof.
  intros p q r. unfold path_le.
  destruct (path_compare p q) eqn:E1; [| | congruence]; intros _.
  - apply (cmp_eq (cmp:=path_compare)) in E1. now subst q.
  - destruct (path_compare q r) eqn:E2; [| | congruence]; intros _.
    + apply (cmp_eq (cmp:=path_compare)) in E2. subst r. now rewrite E1.
    + now rewrite (cmp_lt_trans (cmp:=path_compare) p q r E1 E2).
Qed.

End OrderFacts.

(** ** File selection *)

Section SelectionFacts.
Import BatchCache.
Context {W : Type} (os : OS W).

Lemma excluded_spec (pats : list string) (f : Path) :
  excluded pats f = true ↔
  ∃ pat, pat ∈ pats ∧ PyStr.occurs_in pat (PyPath.str f).
Proof.
  unfold excluded. rewrite existsb_exists. split.
  - intros [pat [Hin Hc]]. exists pat. split; [now apply list_elem_of_In |].
    now apply contains_spec.
  - intros [pat [Hin Hc]]. exists pat. split; [now apply list_elem_of_In |].
    now apply contains_spec.
Qed.

Lemma not_excluded_spec (pats : list string) (f : Path) :
  excluded pats f = false ↔
  ∀ pat, pat ∈ pats → ¬ PyStr.occurs_in pat (PyPath.str f).
Proof.
  rewrite <- not_true_iff_false, excluded_spec. split.
  - intros H pat Hin Hocc. apply H. now exists pat.
  - intros H [pat [Hin Hocc]]. now apply (H pat).
Qed.

(** The loop keeps, in their order, the files no pattern excludes. *)
Lemma collect_filter (pats : list string) (found acc : list Path) :
  collect pats found acc = acc ++ filter (λ f, excluded pats f = false) found.
Proof.
  revert acc. induction found as [|f found IH]; intros acc; simpl.
  - now rewrite app_nil_r.
  - destruct (excluded pats f) eqn:E.
    + rewrite IH, filter_cons_False; [reflexivity | congruence].
    + rewrite IH, filter_cons_True by assumption. now rewrite <- app_assoc.
Qed.

Lemma select_files_perm (found : list Path) (excludes : option (list string)) :
  select_files found excludes ≡ₚ
  filter (λ f, excluded (default default_exclude_patterns excludes) f = false) found.
Proof.
  unfold select_files, sorted. rewrite merge_sort_Permutation.
  now rewrite collect_filter.
Qed.

Lemma select_files_sorted (found : list Path) (excludes : option (list string)) :
  Sorted path_le (select_files found excludes).
Proof. unfold select_files, sorted. apply Sorted_merge_sort, _. Qed.

(** C5: for every root and every set of exclusion patterns, the files
    [find_rust_files] returns are exactly the files found under the root
    whose path string contains no pattern of the set; they come sorted by
    the order of paths, which is total; the result is the same whatever
    the order in which the file system yielded the files; and when nothing
    is left the result is the empty list, returned normally. *)
Theorem find_rust_files_excludes_and_sorts
  (root : Path) (excludes : option (list string)) (s : St) :
  let found := os_rglob os root (world s) in
  let pats := default default_exclude_patterns excludes in
  ∃ files,
    find_rust_files os root excludes s = (Done files, s) ∧
    (∀ f, f ∈ files ↔
          f ∈ found ∧ ∀ pat, pat ∈ pats → ¬ PyStr.occurs_in pat (PyPath.str f)) ∧
    Sorted path_le files ∧
    (∀ p q, path_le p q ∨ path_le q p) ∧
    (∀ found', found' ≡ₚ found → select_files found' excludes = files) ∧
    ((∀ f, f ∈ found → ∃ pat, pat ∈ pats ∧ PyStr.occurs_in pat (PyPath.str f)) →
     files = []).
Proof.
  intros found pats. exists (select_files found excludes).
  split; [reflexivity |].
  assert (Hmem : ∀ f, f ∈ select_files found excludes ↔
                      f ∈ found ∧ ∀ pat, pat ∈ pats → ¬ PyStr.occurs_in pat (PyPath.str f)).
  { intros f. rewrite select_files_perm, list_elem_of_filter, not_excluded_spec. tauto. }
  split; [exact Hmem |].
  split; [apply select_files_sorted |].
  split; [apply path_le_total |].
  split.
  - intros found' Hperm.
    apply (Sorted_unique path_le); try apply select_files_sorted.
    rewrite !select_files_perm. now rewrite Hperm.
  - intros Hall. destruct (select_files found excludes) as [|f l] eqn:E; [reflexivity |].
    assert (Hf : f ∈ f :: l) by apply list_elem_of_here.
    apply Hmem in Hf. destruct Hf as [Hin Hno].
    destruct (Hall f Hin) as [pat [Hp Hocc]]. now destruct (Hno pat Hp).
Qed.

End SelectionFacts.

(** ** The classification of an invocation *)

Section InvokerFacts.
Import BatchCache.
Context {W : Type} (os : OS W).

Lemma truthy_false (s : string) : PyStr.truthy s = false ↔ s = "".
Proof. destruct s; simpl; split; congruence. Qed.

Lemma classify_nonzero (result : CompletedProcess) :
  returncode result ≠ 0%Z →
  classify result =
  (false, false,
   if PyStr.truthy (stdout result +:+ stderr result)
   then PyStr.item0 (PyStr.split PyStr.LF (stdout result +:+ stderr result))
   else "Unknown error").
Proof.
  intros H. unfold classify. now apply Z.eqb_neq in H as ->.
Qed.

Lemma classify_zero (result : CompletedProcess) :
  returncode result = 0%Z →
  classify result =
  if PyStr.contains "Using cached" (stdout result +:+ stderr result)
  then (true, true, "cached")
  else if PyStr.contains "Analysis cached" (stdout result +:+ stderr result)
       then (true, false, "new")
       else (true, false, "analyzed").
Proof.
  intros H. unfold classify. now apply Z.eqb_eq in H as ->.
Qed.

(** When the command completes, [analyze_file] returns its
    classification. *)
Lemma analyze_file_completed (ra repo file rel : Path) (s : St)
      (result : CompletedProcess) (w' : W) :
  PyPath.relative_to file repo = Some rel →
  os_run_captured os (analyze_argv ra rel) repo (world s) = (Ok result, w') →
  fst (analyze_file os ra repo file s) = Done (classify result).
Proof.
  intros Hrel Hrun. unfold analyze_file. rewrite Hrel.
  unfold bind, run_captured. now rewrite Hrun.
Qed.

(** C1: for an invocation that completes within the timeout, with
    [output] the captured standard output followed by the captured
    standard error: a non-zero exit status gives a failure whose reason is
    the first line of [output], or "Unknown error" when [output] is empty;
    otherwise an [output] in which "Using cached" occurs gives a cached
    success; otherwise the success is not a cached one, whether "Analysis
    cached" occurs in [output] (message "new") or not (message
    "analyzed"). *)
Theorem analyze_file_classification
  (ra repo file rel : Path) (s : St) (result : CompletedProcess) (w' : W) :
  PyPath.relative_to file repo = Some rel →
  os_run_captured os (analyze_argv ra rel) repo (world s) = (Ok result, w') →
  let output := stdout result +:+ stderr result in
  ∃ r, fst (analyze_file os ra repo file s) = Done r ∧
    (returncode result ≠ 0%Z →
     ∃ reason, outcome_of r = Failure reason ∧
       (output = "" → reason = "Unknown error") ∧
       (output ≠ "" → PyStr.first_line_of reason output)) ∧
    (returncode result = 0%Z →
     (PyStr.occurs_in "Using cached" output → outcome_of r = Success true) ∧
     (¬ PyStr.occurs_in "Using cached" output →
      outcome_of r = Success false ∧
      (PyStr.occurs_in "Analysis cached" output → r = (true, false, "new")) ∧
      (¬ PyStr.occurs_in "Analysis cached" output → r = (true, false, "analyzed")))).
Proof.
  intros Hrel Hrun output. exists (classify result).
  split; [now apply (analyze_file_completed ra repo file rel s result w') |].
  split.
  - intros Hrc. rewrite (classify_nonzero _ Hrc). fold output.
    eexists. split; [reflexivity |]. split.
    + intros ->. reflexivity.
    + intros Hne. destruct (PyStr.truthy output) eqn:Ht.
      * apply split_first_line.
      * now apply truthy_false in Ht.
  - intros Hrc. rewrite (classify_zero _ Hrc). fold output. split.
    + intros Hocc. apply contains_spec in Hocc. now rewrite Hocc.
    + intros Hno. destruct (PyStr.contains "Using cached" output) eqn:E1.
      { now apply contains_spec in E1. }
      destruct (PyStr.contains "Analysis cached" output) eqn:E2.
      * split; [reflexivity |]. split; [reflexivity |].
        intros Hn. now apply contains_spec in E2.
      * split; [reflexivity |]. split; [| reflexivity].
        intros Hy. apply contains_spec in Hy. congruence.
Qed.

End InvokerFacts.

(** ** The statistics *)

Section AggregatorFacts.
Import BatchCache.

Lemma record_outcome_counted (st : Stats) (f : Path) (r : bool * bool * string) :
  counted (record_outcome st f r) = S (counted st).
Proof.
  destruct r as [[[] []] m]; unfold counted; simpl; lia.
Qed.

Lemma record_outcome_errors (st : Stats) (f : Path) (r : bool * bool * string) :
  length (errors (record_outcome st f r)) + failed st =
  length (errors st) + failed (record_outcome st f r).
Proof.
  destruct r as [[[] []] m]; simpl; rewrite ?length_app; simpl; lia.
Qed.

Lemma record_outcome_failed (st : Stats) (f : Path) (r : bool * bool * string) :
  failed st ≤ failed (record_outcome st f r).
Proof. destruct r as [[[] []] m]; simpl; lia. Qed.

Lemma aggregate_invariant (outcomes : list (Path * (bool * bool * string))) (st : Stats) :
  counted (aggregate st outcomes) = counted st + length outcomes ∧
  length (errors (aggregate st outcomes)) + failed st =
  length (errors st) + failed (aggregate st outcomes) ∧
  failed st ≤ failed (aggregate st outcomes).
Proof.
  revert st. induction outcomes as [|[f r] l IH]; intros st; simpl.
  - repeat split; lia.
  - destruct (IH (record_outcome st f r)) as (H1 & H2 & H3).
    unfold aggregate in *. simpl. rewrite H1, record_outcome_counted.
    pose proof (record_outcome_errors st f r).
    pose proof (record_outcome_failed st f r). repeat split; lia.
Qed.

End AggregatorFacts.

(** ** The loop over the files *)

Section DispatchFacts.
Import BatchCache.
Context {W : Type} (os : OS W).

(** [analyze_file] always returns: no exception of the [try] block
    escapes it and it never stops the process. *)
Lemma analyze_file_returns (ra repo f : Path) (s : St) :
  ∃ r s', analyze_file os ra repo f s = (Done r, s').
Proof.
  unfold analyze_file. destruct (PyPath.relative_to f repo) as [rel|].
  - unfold bind, run_captured.
    destruct (os_run_captured os (analyze_argv ra rel) repo (world s)) as [[res|[|m]] w'];
      simpl; eauto.
  - unfold ret. eauto.
Qed.

(** The loop is the aggregation of one outcome per file. *)
Lemma dispatch_aggregate (ra repo : Path) (files : list Path) (st : Stats) (s : St) :
  ∃ outs s', dispatch os ra repo files st s = (Done (aggregate st (zip files outs)), s') ∧
             length outs = length files.
Proof.
  revert st s. induction files as [|f files IH]; intros st s; simpl.
  - exists [], s. split; reflexivity.
  - unfold bind. destruct (analyze_file_returns ra repo f s) as (r & s1 & E). rewrite E.
    destruct (IH (record_outcome st f r) s1) as (outs & s' & E' & L).
    exists (r :: outs), s'. split; [exact E' | simpl; now rewrite L].
Qed.

Lemma dispatch_app (ra repo : Path) (l1 l2 : list Path) (st : Stats) (s : St) :
  dispatch os ra repo (l1 ++ l2) st s =
  match dispatch os ra repo l1 st s with
  | (Done st1, s1) => dispatch os ra repo l2 st1 s1
  | (Exit c, s1) => (Exit c, s1)
  end.
Proof.
  revert st s. induction l1 as [|f l1 IH]; intros st s; simpl; [reflexivity |].
  unfold bind. destruct (analyze_file os ra repo f s) as [[r|c] s1]; [apply IH | reflexivity].
Qed.

Lemma aggregate_errors_mono (outs : list (Path * (bool * bool * string)))
      (st : Stats) (x : Path * string) :
  x ∈ errors st → x ∈ errors (aggregate st outs).
Proof.
  revert st. induction outs as [|[f r] outs IH]; intros st Hx; [exact Hx |].
  change (x ∈ errors (aggregate (record_outcome st f r) outs)).
  apply IH. destruct r as [[[] []] m]; simpl; try exact Hx;
    apply elem_of_app; now left.
Qed.

Lemma length_zip_same {A B} (l : list A) (k : list B) :
  length k = length l → length (zip l k) = length l.
Proof.
  revert k. induction l as [|a l IH]; intros [|b k]; simpl; try discriminate; auto.
Qed.

(** Whatever the outcomes, the loop ends with every file counted. *)
Lemma dispatch_counts (ra repo : Path) (files : list Path) (st : Stats) (s : St) :
  ∃ st' s', dispatch os ra repo files st s = (Done st', s') ∧
            counted st' = counted st + length files ∧
            length (errors st') + failed st = length (errors st) + failed st' ∧
            failed st ≤ failed st' ∧
            ∀ x, x ∈ errors st → x ∈ errors st'.
Proof.
  destruct (dispatch_aggregate ra repo files st s) as (outs & s' & E & L).
  exists (aggregate st (zip files outs)), s'. split; [exact E |].
  destruct (aggregate_invariant (zip files outs) st) as (H1 & H2 & H3).
  rewrite length_zip_same in H1 by exact L.
  split; [exact H1 |]. split; [exact H2 |]. split; [exact H3 |].
  intros x. apply aggregate_errors_mono.
Qed.

(** C2: each outcome increments exactly one of the three counters by one
    and leaves the other two as they were; so after any sequence of
    outcomes new + cached + failed is the number of outcomes and the
    failure list is as long as the failure count; and the loop of [main]
    ends with these two equalities over the files it was given. *)
Theorem aggregator_counts :
  (∀ (st : Stats) (f : Path) (r : bool * bool * string),
     let st' := record_outcome st f r in
     (success st' = S (success st) ∧ cached st' = cached st ∧ failed st' = failed st) ∨
     (success st' = success st ∧ cached st' = S (cached st) ∧ failed st' = failed st) ∨
     (success st' = success st ∧ cached st' = cached st ∧ failed st' = S (failed st))) ∧
  (∀ outcomes : list (Path * (bool * bool * string)),
     let st := aggregate new_stats outcomes in
     success st + cached st + failed st = length outcomes ∧
     length (errors st) = failed st) ∧
  (∀ (ra repo : Path) (files : list Path) (s : St),
     ∃ st s', dispatch os ra repo files new_stats s = (Done st, s') ∧
              success st + cached st + failed st = length files ∧
              length (errors st) = failed st).
Proof.
  split; [| split].
  - intros st f [[[] []] m]; simpl; lia.
  - intros outcomes. destruct (aggregate_invariant outcomes new_stats) as (H1 & H2 & _).
    unfold counted in H1. simpl in *. split; lia.
  - intros ra repo files s.
    destruct (dispatch_counts ra repo files new_stats s) as (st & s' & E & H1 & H2 & _ & _).
    exists st, s'. unfold counted in H1. simpl in *. repeat split; [exact E | lia | lia].
Qed.

(** C8: in a run over the files [pre ++ f :: post], let the files of
    [pre] have been processed. If the invocation for [f] then times out,
    or raises any other exception (its text is the reason), or the
    relative path of [f] cannot be formed, [analyze_file] returns a
    failure with that reason instead of raising; the loop goes on to the
    end of the list, counts every file, and its failure list holds [f]
    with the reason. *)
Theorem invocation_errors_are_recorded
  (ra repo : Path) (pre post : list Path) (f : Path) (stats : Stats) (s : St) :
  ∃ st1 s1,
    dispatch os ra repo pre stats s = (Done st1, s1) ∧
    ∀ reason,
      ((∃ rel e w', PyPath.relative_to f repo = Some rel ∧
                    os_run_captured os (analyze_argv ra rel) repo (world s1) = (Raise e, w') ∧
                    reason = exn_message e) ∨
       (PyPath.relative_to f repo = None ∧ reason = os_value_error os f repo)) →
      fst (analyze_file os ra repo f s1) = Done (false, false, reason) ∧
      ∃ st2 s2,
        dispatch os ra repo (pre ++ f :: post) stats s = (Done st2, s2) ∧
        (f, reason) ∈ errors st2 ∧
        0 < failed st2 ∧
        counted st2 = counted stats + length (pre ++ f :: post).
Proof.
  destruct (dispatch_counts ra repo pre stats s) as (st1 & s1 & E1 & C1 & _ & _ & _).
  exists st1, s1. split; [exact E1 |]. intros reason Hr.
  assert (Ha : ∃ s1', analyze_file os ra repo f s1 = (Done (false, false, reason), s1')).
  { unfold analyze_file.
    destruct Hr as [(rel & e & w' & Hrel & Hrun & ->) | [Hrel ->]]; rewrite Hrel.
    - unfold bind, run_captured. rewrite Hrun. destruct e; simpl; eauto.
    - unfold ret. eauto. }
  destruct Ha as [s1' Ha]. split; [now rewrite Ha |].
  set (st1' := record_outcome st1 f (false, false, reason)).
  destruct (dispatch_counts ra repo post st1' s1') as (st2 & s2 & E2 & C2 & _ & L2 & M2).
  exists st2, s2. split; [| split; [| split]].
  - rewrite dispatch_app, E1. simpl. unfold bind. rewrite Ha. exact E2.
  - apply M2. subst st1'. simpl. apply elem_of_app. right. apply list_elem_of_here.
  - subst st1'. simpl in L2. lia.
  - rewrite C2. subst st1'. rewrite record_outcome_counted, C1, length_app. simpl. lia.
Qed.

End DispatchFacts.

(** ** The commit step *)

Section CommitFacts.
Import BatchCache.
Context {W : Type} (os : OS W).

(** The commit step always returns to [main]. *)
Lemma commit_step_returns (args : Args) (repo : Path) (total : nat)
      (stats : Stats) (s : St) :
  ∃ s', commit_step os args repo total stats s = (Done tt, s').
Proof.
  unfold commit_step.
  destruct (commit args && (0 <? success stats)); [| unfold ret; eauto].
  unfold bind, print, emit, chdir, run; simpl.
  destruct (os_run os git_rev_parse _) as [rc1 w2]; simpl.
  destruct (rc1 =? 0)%Z; simpl; [| eauto].
  destruct (os_run os git_add _) as [rc2 w3]; simpl.
  destruct (os_run os git_diff _) as [rc3 w4]; simpl.
  destruct (rc3 =? 0)%Z; simpl; [eauto |].
  destruct (os_run os (git_commit _) _) as [rc4 w5]; simpl. eauto.
Qed.

(** C6: with no new analysis the commit step does nothing at all, even
    when a commit was asked for: it starts no command and leaves the
    world as it is. When it is entered, [git commit] is started exactly
    when [git rev-parse] succeeds in the repository and, after
    [git add], [git diff --staged --quiet] reports staged changes by a
    non-zero status. Outside a git repository the step prints its warning
    and returns to [main] without a commit. *)
Theorem commit_only_with_new_analyses_and_staged_changes
  (args : Args) (repo : Path) (total : nat) (stats : Stats) (s : St) :
  let w1 := os_chdir os repo (world s) in
  let is_repo := fst (os_run os git_rev_parse w1) in
  let w2 := snd (os_run os git_rev_parse w1) in
  let w3 := snd (os_run os git_add w2) in
  let staged := fst (os_run os git_diff w3) in
  ∃ events s',
    commit_step os args repo total stats s = (Done tt, s') ∧
    log s' = log s ++ events ∧
    (success stats = 0 → events = [] ∧ s' = s) ∧
    (commit args = false → events = [] ∧ s' = s) ∧
    ((∃ msg, Spawn (git_commit msg) ∈ events) ↔
     commit args = true ∧ 0 < success stats ∧ is_repo = 0%Z ∧ staged ≠ 0%Z) ∧
    (commit args = true → 0 < success stats → is_repo ≠ 0%Z →
     events = [Print "Committing cache files..."; Chdir repo; Spawn git_rev_parse;
               Print "Not a git repository, skipping commit"]).
Proof.
  intros w1 is_repo w2 w3 staged. unfold commit_step.
  destruct (commit args) eqn:Hc; simpl.
  2:{ exists [], s. split; [reflexivity |]. split; [now rewrite app_nil_r |].
      split; [auto |]. split; [auto |]. split; [split |].
      - intros [msg H]. now apply elem_of_nil in H.
      - intros (H & _). discriminate.
      - intros H. discriminate. }
  destruct (0 <? success stats) eqn:Hs.
  2:{ apply Nat.ltb_ge in Hs. exists [], s.
      split; [reflexivity |]. split; [now rewrite app_nil_r |].
      split; [auto |]. split; [auto |]. split; [split |].
      - intros [msg H]. now apply elem_of_nil in H.
      - intros (_ & H & _). lia.
      - intros _ H. lia. }
  apply Nat.ltb_lt in Hs.
  unfold bind, print, emit, chdir, run; simpl. fold w1.
  subst is_repo staged w3 w2.
  destruct (os_run os git_rev_parse w1) as [rc1 w2]; simpl.
  destruct (rc1 =? 0)%Z eqn:H1; simpl.
  2:{ apply Z.eqb_neq in H1. eexists _, _. split; [reflexivity |]. simpl.
      split; [rewrite <- !app_assoc; reflexivity |].
      split; [intros H; lia |]. split; [intros H; discriminate |].
      split; [split |].
      - intros [msg H]. simpl in H. rewrite !elem_of_cons in H. rewrite elem_of_nil in H.
        unfold git_rev_parse, git_commit in H.
        destruct H as [H | [H | [H | [H | []]]]]; discriminate.
      - intros (_ & _ & H & _). contradiction.
      - reflexivity. }
  apply Z.eqb_eq in H1.
  destruct (os_run os git_add w2) as [rc2 w3]; simpl.
  destruct (os_run os git_diff w3) as [rc3 w4]; simpl.
  destruct (rc3 =? 0)%Z eqn:H3; simpl.
  - apply Z.eqb_eq in H3. eexists _, _. split; [reflexivity |]. simpl.
    split; [rewrite <- !app_assoc; reflexivity |].
    split; [intros H; lia |]. split; [intros H; discriminate |].
    split; [split |].
    + intros [msg H]. simpl in H. rewrite !elem_of_cons in H. rewrite elem_of_nil in H.
      unfold git_rev_parse, git_add, git_diff, git_commit in H.
      destruct H as [H | [H | [H | [H | [H | [H | []]]]]]]; discriminate.
    + intros (_ & _ & _ & H). contradiction.
    + intros _ _ H. contradiction.
  - apply Z.eqb_neq in H3.
    destruct (os_run os (git_commit (commit_msg total stats)) w4) as [rc4 w5]; simpl.
    eexists _, _. split; [reflexivity |]. simpl.
    split; [rewrite <- !app_assoc; reflexivity |].
    split; [intros H; lia |]. split; [intros H; discriminate |].
    split; [split |].
    + intros _. auto.
    + intros _. exists (commit_msg total stats). simpl. rewrite !elem_of_cons. tauto.
    + intros _ _ H. contradiction.
Qed.

End CommitFacts.

(** ** The whole run *)

Section MainFacts.
Import BatchCache.
Context {W : Type} (os : OS W).

(** What [main] has in hand when the loop starts: either a check failed
    and the process has exited with status 1, or the three checks passed
    and the files are the selected ones, cut by the limit. *)
Lemma prepare_cases (script : Path) (args : Args) (s : St) :
  (preconditions os script args (world s) = false ∧
   ∃ s1, prepare os script args s = (Exit 1, s1)) ∨
  (preconditions os script args (world s) = true ∧
   ∃ s1, prepare os script args s =
         (Done (binary_path script,
                os_resolve os (repo_path args) (world s),
                apply_limit (limit args)
                  (select_files
                     (os_rglob os (os_resolve os (repo_path args) (world s)) (world s1))
                     (Some (exclude_patterns_of args)))), s1)).
Proof.
  unfold preconditions, prepare, get_rustassistant_path, load_env, find_rust_files.
  unfold bind, resolve, path_exists, rglob, print, emit, sys_exit, ret, run; simpl.
  destruct (os_exists os (os_resolve os (repo_path args) (world s)) (world s));
    simpl; [| left; eauto].
  destruct (os_exists os (binary_path script) (world s)); simpl; [| left; eauto].
  destruct (os_exists os (env_file_path _) (world s)); simpl; [| left; eauto].
  right. split; [reflexivity |].
  destruct (os_exists os (PyPath.child _ ".rustassistant") (world s)); simpl.
  - eauto.
  - destruct (os_run os _ (world s)) as [rc w']; simpl.
    eexists {| world := w'; log := _ |}. reflexivity.
Qed.

Lemma process_empty (args : Args) (ra repo : Path) (s : St) :
  exit_status (process os args ra repo [] s) = 0%Z.
Proof. reflexivity. Qed.

(** The exit code of [main] after the loop. *)
Lemma process_exit (args : Args) (ra repo : Path) (files : list Path) (s : St)
      (stats : Stats) (s' : St) :
  dispatch os ra repo files new_stats s = (Done stats, s') →
  exit_status (process os args ra repo files s) =
  if (0 <? failed stats) then 1%Z else 0%Z.
Proof.
  intros E. unfold process. destruct files as [|f files].
  - simpl in E. injection E as <- <-. reflexivity.
  - change (length (f :: files) =? 0) with false. cbv iota.
    unfold bind at 1. rewrite E.
    unfold bind at 1. unfold run at 1.
    destruct (os_run os _ (world s')) as [rc w1].
    unfold bind at 1.
    destruct (commit_step_returns os args repo (length (f :: files)) stats
                {| world := w1; log := log s' ++ [Spawn [PyPath.str ra; "cache"; "status"; "--path"; PyPath.str repo]] |})
      as [s2 ->].
    destruct (0 <? failed stats); reflexivity.
Qed.

(** C7: in a run that passes the three checks of [main], let [stats] be
    what the loop over the selected files ends with. The exit status of
    the process is non-zero exactly when [stats] counts a failure,
    whatever the commit step was asked and whatever git answered; and
    with no file to process the exit status is zero. *)
Theorem exit_status_reflects_failures (script : Path) (args : Args) (s : St) :
  preconditions os script args (world s) = true →
  ∃ ra repo files s1 stats s2,
    prepare os script args s = (Done (ra, repo, files), s1) ∧
    dispatch os ra repo files new_stats s1 = (Done stats, s2) ∧
    (exit_status (main os script args s) ≠ 0%Z ↔ 0 < failed stats) ∧
    (files = [] → exit_status (main os script args s) = 0%Z).
Proof.
  intros Hpre.
  destruct (prepare_cases script args s) as [[Hf _] | [_ [s1 Hp]]]; [congruence |].
  eexists _, _, _, s1.
  destruct (dispatch_counts os (binary_path script)
              (os_resolve os (repo_path args) (world s))
              (apply_limit (limit args)
                 (select_files
                    (os_rglob os (os_resolve os (repo_path args) (world s)) (world s1))
                    (Some (exclude_patterns_of args))))
              new_stats s1) as (stats & s2 & E & _).
  exists stats, s2. split; [exact Hp |]. split; [exact E |].
  assert (Hm : exit_status (main os script args s) =
               if (0 <? failed stats) then 1%Z else 0%Z).
  { unfold main, bind. rewrite Hp. now apply process_exit with (s' := s2). }
  split.
  - rewrite Hm. destruct (0 <? failed stats) eqn:Hfail.
    + apply Nat.ltb_lt in Hfail. split; [auto | discriminate].
    + apply Nat.ltb_ge in Hfail. split; [congruence | lia].
  - intros Hnil. unfold main, bind. rewrite Hp, Hnil. apply process_empty.
Qed.

Lemma parse_args_exclude_tests (opts : list CliOption) (a : Args) :
  exclude_tests a = true → exclude_tests (fold_left apply_option opts a) = true.
Proof.
  revert a. induction opts as [|o opts IH]; intros a Ha; [exact Ha |].
  simpl. apply IH. destruct o; simpl; auto.
Qed.

(** C10: whatever options are on the command line, with [--exclude-tests]
    or without it, [exclude_tests] is true after parsing, the patterns
    [main] builds are "/target/", "/.git/", "/tests/", "/benches/" and
    "/examples/", and these are the patterns the files handed to the loop
    were selected with. *)
Theorem exclude_tests_always_on (p : Path) (opts : list CliOption) :
  exclude_tests (parse_args p opts) = true ∧
  exclude_patterns_of (parse_args p opts) =
    ["/target/"; "/.git/"; "/tests/"; "/benches/"; "/examples/"] ∧
  ∀ (script : Path) (s : St) ra repo files s1,
    prepare os script (parse_args p opts) s = (Done (ra, repo, files), s1) →
    files = apply_limit (limit (parse_args p opts))
              (select_files (os_rglob os repo (world s1))
                 (Some ["/target/"; "/.git/"; "/tests/"; "/benches/"; "/examples/"])).
Proof.
  assert (H : exclude_tests (parse_args p opts) = true)
    by (apply parse_args_exclude_tests; reflexivity).
  assert (H' : exclude_patterns_of (parse_args p opts) =
               ["/target/"; "/.git/"; "/tests/"; "/benches/"; "/examples/"])
    by (unfold exclude_patterns_of; now rewrite H).
  split; [exact H |]. split; [exact H' |].
  intros script s ra repo files s1 Hp.
  destruct (prepare_cases script (parse_args p opts) s) as [[_ [s' E]] | [_ [s' E]]];
    rewrite E in Hp; [discriminate |].
  injection Hp as <- <- <- <-. now rewrite H'.
Qed.

(** C3, as the code has it: the files processed are always a prefix of the
    unlimited list; for a positive limit [n] they are its first
    [min n |F|] files; without a limit, or with the limit 0, they are the
    whole list. *)
Theorem apply_limit_prefix (limit : option Z) (files : list Path) :
  apply_limit limit files `prefix_of` files ∧
  (∀ n, limit = Some n → (0 < n)%Z →
        apply_limit limit files = take (Z.to_nat n) files ∧
        length (apply_limit limit files) = Nat.min (Z.to_nat n) (length files)) ∧
  (limit = None ∨ limit = Some 0%Z → apply_limit limit files = files).
Proof.
  split; [| split].
  - destruct limit as [n|]; simpl; [| reflexivity].
    destruct (n =? 0)%Z; [reflexivity |]. unfold slice_to.
    destruct (0 <=? n)%Z; apply prefix_take.
  - intros n -> Hn. simpl.
    destruct (n =? 0)%Z eqn:E; [apply Z.eqb_eq in E; lia |].
    unfold slice_to. destruct (0 <=? n)%Z eqn:E'; [| apply Z.leb_gt in E'; lia].
    split; [reflexivity | apply length_take].
  - intros [-> | ->]; reflexivity.
Qed.

End MainFacts.

(** ** The repository store *)

Section StoreFacts.
Import RepoManager.

Lemma add_checked_duplicate (store : Store) (p n : string) (env : AddEnv)
      (log : list LogLine) :
  0 < count_path store p →
  add_checked store p n env log =
  (false, log ++ [already_exists n], store).
Proof.
  intros H. unfold add_checked. now apply Nat.ltb_lt in H as ->.
Qed.

Lemma count_path_snoc (store : Store) (r : Repository) (p : string) :
  count_path (store ++ [r]) p =
  count_path store p + (if String.eqb (path r) p then 1 else 0).
Proof.
  unfold count_path. rewrite List.filter_app, length_app. simpl.
  destruct (String.eqb (path r) p); reflexivity.
Qed.

(** An [UPDATE] that matches no row leaves the table as it is. *)
Lemma update_no_match (store : Store) (m : string) (f : Repository → Repository) :
  count_name store m = 0 →
  map (λ r, if String.eqb (name r) m then f r else r) store = store.
Proof.
  unfold count_name. induction store as [|r store IH]; simpl; [reflexivity |].
  destruct (String.eqb (name r) m); simpl; [discriminate |].
  intros H. now rewrite IH.
Qed.

Lemma enable_scan_missing (store : Store) (m : string) (interval now : Z) :
  count_name store m = 0 →
  enable_scan store m interval now None =
  (false, [not_found m], store).
Proof.
  intros H. unfold enable_scan. rewrite H. simpl. now rewrite update_no_match.
Qed.

Lemma disable_scan_missing (store : Store) (m : string) (now : Z) :
  count_name store m = 0 →
  disable_scan store m now None =
  (false, [not_found m], store).
Proof.
  intros H. unfold disable_scan. rewrite H. simpl.
  now rewrite (update_no_match store m (λ r, set_scan false (scan_interval_minutes r) now r)).
Qed.

(** C9, as the code has it: adding a repository whose path is already in
    the table is always rejected and leaves the table as it is. When the
    path is on the disk, or the operator answers "y" to the prompt, the
    rejection logs the warning "Repository already exists"; enabling or
    disabling the scan of a name that is not in the table returns false
    too, but logs the error "Repository not found", a line of another
    level and another text, which the rejected add never logs. After a
    first add that succeeded on a table without the path, the table holds
    exactly one record for it, and the rejected second add keeps it so. *)
Theorem duplicate_add_rejected (store : Store) (p n : string) (env : AddEnv) :
  0 < count_path store p →
  ∃ log,
    add_repo store p n env = (false, log, store) ∧
    (fs_exists env = true ∨ PyStr.lower (answer env) = "y" →
     already_exists n ∈ log) ∧
    (∀ m interval now,
       count_name store m = 0 →
       enable_scan store m interval now None =
         (false, [not_found m], store) ∧
       disable_scan store m now None =
         (false, [not_found m], store) ∧
       (not_found m ∉ log) ∧
       (already_exists n ∉ [not_found m])) ∧
    (∀ store0 n0 env0 log0,
       count_path store0 p = 0 →
       add_repo store0 p n0 env0 = (true, log0, store) →
       count_path store p = 1).
Proof.
  intros Hdup.
  assert (Hlog : ∃ log, add_repo store p n env = (false, log, store) ∧
            (fs_exists env = true ∨ PyStr.lower (answer env) = "y" →
             already_exists n ∈ log) ∧
            ∀ m, not_found m ∉ log).
  { unfold add_repo. destruct (fs_exists env) eqn:Hfs; simpl.
    - rewrite add_checked_duplicate by exact Hdup. eexists. split; [reflexivity |].
      split.
      + intros _. simpl. apply list_elem_of_here.
      + intros m H. simpl in H. rewrite elem_of_cons, elem_of_nil in H.
        destruct H as [H | []]. unfold not_found, already_exists in H. discriminate.
    - destruct (String.eqb (PyStr.lower (answer env)) "y") eqn:Hy; simpl.
      + rewrite add_checked_duplicate by exact Hdup. eexists. split; [reflexivity |].
        split.
        * intros _. simpl. rewrite !elem_of_cons. tauto.
        * intros m H. simpl in H. rewrite !elem_of_cons, elem_of_nil in H.
          unfold not_found, already_exists in H.
          destruct H as [H | [H | []]]; discriminate.
      + eexists. split; [reflexivity |]. split.
        * intros [H | H]; [discriminate |].
          apply String.eqb_neq in Hy. contradiction.
        * intros m H. simpl in H. rewrite !elem_of_cons, elem_of_nil in H.
          unfold not_found, already_exists in H.
          destruct H as [H | [H | []]]; discriminate. }
  destruct Hlog as (log & Hadd & Hsig & Hnot).
  exists log. split; [exact Hadd |]. split; [exact Hsig |]. split.
  - intros m interval now Hm.
    split; [now apply enable_scan_missing |].
    split; [now apply disable_scan_missing |].
    split; [apply Hnot |].
    intros H. rewrite elem_of_cons, elem_of_nil in H. destruct H as [H | []].
    unfold not_found, already_exists in H. discriminate.
  - intros store0 n0 env0 log0 H0 Hfirst.
    assert (Hc : ∀ l, add_checked store0 p n0 env0 l = (true, log0, store) →
                      store = store0 ++ [new_row p n0 env0]).
    { intros l. unfold add_checked. rewrite H0. simpl.
      destruct (insert_error env0); [discriminate |]. now intros [= _ <-]. }
    assert (Hs : store = store0 ++ [new_row p n0 env0]).
    { revert Hfirst. unfold add_repo. destruct (fs_exists env0); simpl.
      - apply Hc.
      - destruct (String.eqb (PyStr.lower (answer env0)) "y"); simpl;
          [apply Hc | discriminate]. }
    rewrite Hs, count_path_snoc, H0. simpl. now rewrite String.eqb_refl.
Qed.

Lemma is_due_spec (now : Z) (r : Repository) :
  is_due now r = true ↔
  auto_scan_enabled r = true ∧
  (last_scan_check r = None ∨
   ∃ checked, last_scan_check r = Some checked ∧
              (scan_interval_minutes r * 60 ≤ now - checked)%Z).
Proof.
  unfold is_due. rewrite andb_true_iff.
  destruct (last_scan_check r) as [t|].
  - rewrite Z.leb_le. split.
    + intros [Ha Hle]. split; [exact Ha |]. right. now exists t.
    + intros [Ha [H | [c [[= <-] Hle]]]]; [discriminate | now split].
  - split; [intros [Ha _]; split; [exact Ha | now left] | now intros [Ha _]].
Qed.

(** C4: a record is among the records due at [now] iff it is one of the
    records, its auto-scan flag is true, and its last check is unset or
    at least [interval_minutes * 60] seconds before [now]. A record
    checked exactly [interval_minutes * 60] seconds ago is due, one second
    less and it is not; with an interval of 60 minutes a check 3601
    seconds ago makes it due and a check 3599 seconds ago does not. A
    record whose flag is false is due at no time. *)
Theorem due_for_scan_rule (records : list Repository) (now : Z) (r : Repository) :
  (r ∈ dueForScan records now ↔
   r ∈ records ∧ auto_scan_enabled r = true ∧
   (last_scan_check r = None ∨
    ∃ checked, last_scan_check r = Some checked ∧
               (scan_interval_minutes r * 60 ≤ now - checked)%Z)) ∧
  (auto_scan_enabled r = true →
   (last_scan_check r = Some (now - scan_interval_minutes r * 60)%Z →
    is_due now r = true) ∧
   (last_scan_check r = Some (now - scan_interval_minutes r * 60 + 1)%Z →
    is_due now r = false) ∧
   (scan_interval_minutes r = 60%Z →
    (last_scan_check r = Some (now - 3601)%Z → is_due now r = true) ∧
    (last_scan_check r = Some (now - 3599)%Z → is_due now r = false))) ∧
  (auto_scan_enabled r = false →
   ∀ now', is_due now' r = false ∧ (r ∉ dueForScan records now')).
Proof.
  split; [| split].
  - unfold dueForScan. rewrite list_elem_of_In, filter_In, is_due_spec,
      <- list_elem_of_In. tauto.
  - intros Ha. unfold is_due. rewrite Ha. simpl. split; [| split].
    + intros ->. apply Z.leb_le. lia.
    + intros ->. apply Z.leb_gt. lia.
    + intros Hi. rewrite Hi. split; intros ->; [apply Z.leb_le | apply Z.leb_gt]; lia.
  - intros Ha now'. assert (Hd : is_due now' r = false) by (unfold is_due; now rewrite Ha).
    split; [exact Hd |]. unfold dueForScan.
    rewrite list_elem_of_In, filter_In. intros [_ H]. congruence.
Qed.

End StoreFacts.

(** ** The scripts at work in the small world *)

Section Scenarios.
Import BatchCache.

(** Three files found, one under [target/]: two are analysed, both
    freshly, and the process exits with status 0. *)
Example all_fresh_run :
  let os := Demo.os [] in
  exit_status (main os Demo.script (parse_args Demo.repo []) Demo.start) = 0%Z ∧
  fst (dispatch os (binary_path Demo.script) Demo.repo [Demo.lib_rs; Demo.main_rs]
         new_stats Demo.start) =
  Done {| success := 2; cached := 0; failed := 0; errors := [] |}.
Proof. split; reflexivity. Qed.

(** The second of two analyses times out: one new analysis, one failure
    listed with the reason "timeout", exit status 1. *)
Example one_timeout_run :
  let os := Demo.os [Ok Demo.fresh; Raise TimeoutExpired] in
  exit_status (main os Demo.script (parse_args Demo.repo []) Demo.start) = 1%Z ∧
  fst (dispatch os (binary_path Demo.script) Demo.repo [Demo.lib_rs; Demo.main_rs]
         new_stats Demo.start) =
  Done {| success := 1; cached := 0; failed := 1;
          errors := [(Demo.main_rs, "timeout")] |}.
Proof. split; reflexivity. Qed.

(** A failed analysis is reported by the first line of its output. *)
Lemma analyze_file_classification_witness :
  PyPath.relative_to Demo.main_rs Demo.repo = Some ["src"; "main.rs"] ∧
  os_run_captured (Demo.os [Ok Demo.broken])
    (analyze_argv (binary_path Demo.script) ["src"; "main.rs"]) Demo.repo
    (world Demo.start) = (Ok Demo.broken, 1) ∧
  ∃ r, fst (analyze_file (Demo.os [Ok Demo.broken]) (binary_path Demo.script)
              Demo.repo Demo.main_rs Demo.start) = Done r ∧
       ∃ reason, outcome_of r = Failure reason ∧
                 PyStr.first_line_of reason (stdout Demo.broken +:+ stderr Demo.broken).
Proof.
  split; [reflexivity |]. split; [reflexivity |].
  destruct (analyze_file_classification (Demo.os [Ok Demo.broken])
              (binary_path Demo.script) Demo.repo Demo.main_rs ["src"; "main.rs"]
              Demo.start Demo.broken 1 eq_refl eq_refl) as (r & Hr & Hfail & _).
  exists r. split; [exact Hr |].
  destruct Hfail as (reason & Ho & _ & Hline); [discriminate |].
  exists reason. split; [exact Ho |]. apply Hline. discriminate.
Defined.

(** A run with a timeout and [--commit]: the checks pass, and the exit
    status follows the failure count. *)
Lemma exit_status_reflects_failures_witness :
  let os := Demo.os [Ok Demo.fresh; Raise TimeoutExpired] in
  let args := parse_args Demo.repo [OptCommit] in
  preconditions os Demo.script args (world Demo.start) = true ∧
  ∃ ra repo files s1 stats s2,
    prepare os Demo.script args Demo.start = (Done (ra, repo, files), s1) ∧
    dispatch os ra repo files new_stats s1 = (Done stats, s2) ∧
    (exit_status (main os Demo.script args Demo.start) ≠ 0%Z ↔ 0 < failed stats) ∧
    (files = [] → exit_status (main os Demo.script args Demo.start) = 0%Z).
Proof.
  split; [reflexivity |].
  apply (exit_status_reflects_failures
           (Demo.os [Ok Demo.fresh; Raise TimeoutExpired]) Demo.script
           (parse_args Demo.repo [OptCommit]) Demo.start).
  reflexivity.
Defined.

(** C3, the claim as stated fails: with [--limit 0] the two selected
    files are both handed to the loop, not the prefix of length
    [min 0 2]. *)
Lemma limit_zero_processes_every_file :
  fst (prepare (Demo.os []) Demo.script (parse_args Demo.repo [OptLimit 0]) Demo.start) =
    Done (binary_path Demo.script, Demo.repo, [Demo.lib_rs; Demo.main_rs]) ∧
  select_files Demo.found (Some (exclude_patterns_of (parse_args Demo.repo [OptLimit 0]))) =
    [Demo.lib_rs; Demo.main_rs] ∧
  length [Demo.lib_rs; Demo.main_rs] ≠
    Nat.min (Z.to_nat 0) (length [Demo.lib_rs; Demo.main_rs]).
Proof. split; [reflexivity |]. split; [reflexivity |]. discriminate. Qed.

End Scenarios.

Section StoreScenarios.
Import RepoManager.

(** The path of [fks] is on the disk and already in the table. *)
Lemma duplicate_add_rejected_witness :
  0 < count_path Demo.store "/home/dev/fks" ∧
  ∃ log, add_repo Demo.store "/home/dev/fks" "fks" Demo.on_disk =
           (false, log, Demo.store) ∧
         already_exists "fks" ∈ log.
Proof.
  assert (H : 0 < count_path Demo.store "/home/dev/fks") by (cbv; lia).
  split; [exact H |].
  destruct (duplicate_add_rejected Demo.store "/home/dev/fks" "fks" Demo.on_disk H)
    as (log & Hadd & Hsig & _).
  exists log. split; [exact Hadd |]. apply Hsig. now left.
Defined.

(** C9, the claim as stated fails: the path is in the table but no longer
    on the disk, the operator answers "n", and the add is rejected with
    "Skipping..." and no "already exists" line. *)
Lemma declined_duplicate_add_is_skipped :
  0 < count_path Demo.store "/home/dev/fks" ∧
  add_repo Demo.store "/home/dev/fks" "fks" Demo.declines =
    (false,
     [(WARNING, "Path does not exist: /home/dev/fks"); (INFO, "Skipping...")],
     Demo.store) ∧
  (already_exists "fks" ∉
     [(WARNING, "Path does not exist: /home/dev/fks"); (INFO, "Skipping...")]).
Proof.
  split; [cbv; lia |]. split; [reflexivity |].
  intros H. rewrite !elem_of_cons, elem_of_nil in H.
  unfold already_exists in H. destruct H as [H | [H | []]]; discriminate.
Qed.

End StoreScenarios.


(** * Further properties of batch_cache.py *)

Section PathFacts.

(** A child's parent is the path it was made from. *)
Lemma parent_child (p : Path) (x : string) :
  x ≠ "/" → PyPath.parent (PyPath.child p x) = p.
Proof.
  intros Hx. unfold PyPath.child, PyPath.parent.
  destruct p as [|a p]; simpl.
  - apply String.eqb_neq in Hx. now rewrite Hx.
  - destruct p as [|b p]; [reflexivity |].
    change (removelast ((a :: b :: p) ++ [x]) = a :: b :: p).
    apply removelast_last.
Qed.

(** X1: The project root [main] computes back from the binary is the one
    [get_rustassistant_path] started from, two levels above the script;
    so the [.env] file that is checked is the one beside [target/]. *)
Theorem project_root_round_trip (script_file : Path) :
  let binary := BatchCache.binary_path script_file in
  PyPath.parent (PyPath.parent (PyPath.parent binary)) =
    PyPath.parent (PyPath.parent script_file) ∧
  BatchCache.env_file_path (PyPath.parent (PyPath.parent (PyPath.parent binary))) =
    PyPath.child (PyPath.parent (PyPath.parent script_file)) ".env".
Proof.
  assert (H : PyPath.parent (PyPath.parent (PyPath.parent
                (BatchCache.binary_path script_file))) =
              PyPath.parent (PyPath.parent script_file)).
  { unfold BatchCache.binary_path. rewrite !parent_child by discriminate. reflexivity. }
  simpl. split; [exact H |]. now rewrite H.
Qed.

End PathFacts.

Section TraceFacts.
Import BatchCache.
Context {W : Type} (os : OS W).

(** What [analyze_file] leaves in the log. *)
Lemma analyze_file_log (ra repo f : Path) (s : St) :
  ∃ r s', analyze_file os ra repo f s = (Done r, s') ∧
          log s' = log s ++ started ra repo f.
Proof.
  unfold analyze_file, started. destruct (PyPath.relative_to f repo) as [rel|].
  - unfold bind, run_captured, analyze_argv.
    destruct (os_run_captured os _ repo (world s)) as [[res|[|m]] w'];
      simpl; eauto.
  - unfold ret. exists (false, false, os_value_error os f repo), s.
    split; [reflexivity |]. now rewrite app_nil_r.
Qed.

Lemma dispatch_log
  (ra repo : Path) (files : list Path) (stats : Stats) (s : St) :
  ∃ st s',
    dispatch os ra repo files stats s = (Done st, s') ∧
    log s' = log s ++ concat (map (started ra repo) files).
Proof.
  revert stats s. induction files as [|f files IH]; intros stats s; simpl.
  - exists stats, s. split; [reflexivity |]. now rewrite app_nil_r.
  - unfold bind. destruct (analyze_file_log ra repo f s) as (r & s1 & E & L). rewrite E.
    destruct (IH (record_outcome stats f r) s1) as (st & s' & E' & L').
    exists st, s'. split; [exact E' |]. now rewrite L', L, app_assoc.
Qed.

(** X4: The loop starts one analysis for each file, in the order of the
    list, and nothing else: no file is analysed twice or skipped, whatever
    the outcomes of the analyses before it. *)
Theorem dispatch_starts_one_analysis_per_file
  (ra repo : Path) (files : list Path) (stats : Stats) (s : St) :
  ∃ st s',
    dispatch os ra repo files stats s = (Done st, s') ∧
    log s' = log s ++ concat (map (started ra repo) files).
Proof. exact (dispatch_log ra repo files stats s). Qed.

(** X2: When one of the three checks of [main] fails, the process exits with
    status 1 having only printed: no command was started, no directory
    changed, and the world is as it was. *)
Theorem failed_check_exits_before_any_command (script : Path) (args : Args) (s : St) :
  preconditions os script args (world s) = false →
  ∃ lines s1,
    main os script args s = (Exit 1, s1) ∧
    world s1 = world s ∧
    log s1 = log s ++ map Print lines ∧
    lines ≠ [].
Proof.
  unfold preconditions, main, prepare, get_rustassistant_path, load_env.
  unfold bind, resolve, path_exists, print, emit, sys_exit, ret; simpl.
  destruct (os_exists os (os_resolve os (repo_path args) (world s)) (world s)); simpl.
  - destruct (os_exists os (binary_path script) (world s)); simpl.
    + destruct (os_exists os (env_file_path _) (world s)); simpl; [discriminate |].
      intros _. eexists [_], _. split; [reflexivity |].
      split; [reflexivity |]. split; [reflexivity | discriminate].
    + intros _. eexists [_; _], _. split; [reflexivity |].
      split; [reflexivity |]. simpl. split; [now rewrite <- app_assoc | discriminate].
  - intros _. eexists [_], _. split; [reflexivity |].
    split; [reflexivity |]. split; [reflexivity | discriminate].
Qed.

(** X3: When the checks pass, the cache is initialised exactly when the
    directory [.rustassistant] of the repository does not exist; that is
    the only command started before the files are looked for, and with
    the directory in place the world is not touched. *)
Theorem cache_init_only_when_missing (script : Path) (args : Args) (s : St) :
  preconditions os script args (world s) = true →
  let repo := os_resolve os (repo_path args) (world s) in
  let init := [PyPath.str (binary_path script); "cache"; "init"; "--path";
               PyPath.str repo] in
  ∃ files s1,
    prepare os script args s = (Done (binary_path script, repo, files), s1) ∧
    (os_exists os (PyPath.child repo ".rustassistant") (world s) = true →
     s1 = s) ∧
    (os_exists os (PyPath.child repo ".rustassistant") (world s) = false →
     log s1 = log s ++ [Spawn init] ∧ world s1 = snd (os_run os init (world s))).
Proof.
  unfold preconditions, prepare, get_rustassistant_path, load_env, find_rust_files.
  unfold bind, resolve, path_exists, rglob, print, emit, sys_exit, ret, run; simpl.
  destruct (os_exists os (os_resolve os (repo_path args) (world s)) (world s));
    simpl; [| discriminate].
  destruct (os_exists os (binary_path script) (world s)); simpl; [| discriminate].
  destruct (os_exists os (env_file_path _) (world s)); simpl; [| discriminate].
  intros _.
  destruct (os_exists os (PyPath.child _ ".rustassistant") (world s)); simpl.
  - eexists _, s. split; [reflexivity |]. split; [reflexivity | discriminate].
  - destruct (os_run os _ (world s)) as [rc w'] eqn:E; simpl.
    eexists _, {| world := w'; log := _ |}. split; [reflexivity |].
    split; [discriminate |]. intros _. simpl. split; reflexivity.
Qed.

(** X5: Without [--commit], what [main] does once the files are known is the
    analyses, then the status command, then the exit: no git command is
    started and the directory is not changed. With no file, it only
    prints. *)
Theorem no_commit_no_git (args : Args) (ra repo : Path) (files : list Path) (s : St) :
  commit args = false →
  ∃ stats s1 o s',
    dispatch os ra repo files new_stats s = (Done stats, s1) ∧
    process os args ra repo files s = (o, s') ∧
    log s' = log s ++ quiet_trace ra repo files stats.
Proof.
  intros Hc.
  destruct (dispatch_log ra repo files new_stats s)
    as (stats & s1 & E & L).
  exists stats, s1. unfold process, quiet_trace. destruct files as [|f files].
  - eexists _, _. split; [exact E |]. split; reflexivity.
  - change (length (f :: files) =? 0) with false. cbv iota.
    unfold bind at 1. rewrite E.
    unfold bind at 1. unfold run at 1.
    destruct (os_run os _ (world s1)) as [rc w1].
    unfold bind at 1. unfold commit_step. rewrite Hc. simpl.
    unfold ret. destruct (0 <? failed stats).
    + eexists _, _. split; [reflexivity |]. split; [reflexivity |].
      cbn [log]. rewrite L. simpl. now rewrite <- !app_assoc.
    + eexists _, _. split; [reflexivity |]. split; [reflexivity |].
      cbn [log]. rewrite L. simpl. now rewrite <- !app_assoc.
Qed.

End TraceFacts.

Section SelectionMore.
Import BatchCache.

Lemma StronglySorted_filter_keep {A} (R : relation A) (P : A → Prop)
      `{∀ x, Decision (P x)} (l : list A) :
  StronglySorted R l → StronglySorted R (filter P l).
Proof.
  induction 1 as [|x l Hs IH Hx]; [constructor |].
  rewrite filter_cons. destruct (decide (P x)); [| exact IH].
  constructor; [exact IH |].
  apply List.Forall_forall. intros y Hy.
  apply list_elem_of_In, list_elem_of_filter in Hy.
  rewrite List.Forall_forall in Hx. apply Hx, list_elem_of_In, Hy.
Qed.

Lemma select_files_strongly_sorted (found : list Path) (e : option (list string)) :
  StronglySorted path_le (select_files found e).
Proof. apply Sorted_StronglySorted; [apply _ | apply select_files_sorted]. Qed.

(** Selecting with patterns [pats'] from what was selected with [pats]
    is selecting with [pats'] from the start, when [pats'] has every
    pattern of [pats]. *)
Lemma select_files_refine (found : list Path) (pats pats' : list string) :
  pats ⊆ pats' →
  select_files found (Some pats') =
  filter (λ f, excluded pats' f = false) (select_files found (Some pats)).
Proof.
  intros Hsub. apply (StronglySorted_unique path_le).
  - apply select_files_strongly_sorted.
  - apply StronglySorted_filter_keep, select_files_strongly_sorted.
  - rewrite !select_files_perm. simpl. rewrite list_filter_filter.
    erewrite list_filter_iff; [reflexivity |].
    intros f. rewrite !not_excluded_spec. split; [| tauto].
    intros H. split; [exact H |]. intros pat Hp. apply H, Hsub, Hp.
Qed.

(** X6: Selecting again from a selection changes nothing. *)
Theorem select_files_idempotent (found : list Path) (excludes : option (list string)) :
  select_files (select_files found excludes) excludes = select_files found excludes.
Proof.
  apply (StronglySorted_unique path_le); try apply select_files_strongly_sorted.
  rewrite (select_files_perm (select_files found excludes)), !select_files_perm.
  rewrite list_filter_filter. apply Permutation_refl'.
  apply list_filter_iff. tauto.
Qed.

(** X7: More patterns select fewer files, in the same order: with every
    pattern of [pats] among [pats'], the files selected with [pats'] are a
    subsequence of those selected with [pats]. In particular what [main]
    selects, after any command line, is a subsequence of what
    [find_rust_files] selects with its own default patterns. *)
Theorem more_patterns_select_fewer_files (found : list Path) :
  (∀ pats pats', pats ⊆ pats' →
     select_files found (Some pats') `sublist_of` select_files found (Some pats)) ∧
  (∀ p opts,
     select_files found (Some (exclude_patterns_of (parse_args p opts)))
       `sublist_of` select_files found None).
Proof.
  assert (H : ∀ pats pats', pats ⊆ pats' →
     select_files found (Some pats') `sublist_of` select_files found (Some pats)).
  { intros pats pats' Hsub. rewrite (select_files_refine found pats pats' Hsub).
    apply sublist_filter. }
  split; [exact H |]. intros p opts.
  change (select_files found None) with (select_files found (Some default_exclude_patterns)).
  apply H. unfold exclude_patterns_of.
  assert (Ht : exclude_tests (parse_args p opts) = true)
    by (apply parse_args_exclude_tests; reflexivity).
  rewrite Ht. unfold default_exclude_patterns. intros x Hx.
  rewrite !elem_of_cons, elem_of_nil in Hx. simpl. rewrite !elem_of_cons. tauto.
Qed.

(** X8: An empty exclusion pattern excludes every file: the empty string
    occurs in every path. *)
Theorem empty_pattern_excludes_everything (found : list Path) (pats : list string) :
  "" ∈ pats → select_files found (Some pats) = [].
Proof.
  intros Hin. apply Permutation_nil. rewrite select_files_perm. simpl.
  induction found as [|f found IH]; [reflexivity |].
  rewrite filter_cons_False; [exact IH |].
  assert (E : excluded pats f = true).
  { apply excluded_spec. exists "". split; [exact Hin |].
    exists "", (PyPath.str f). reflexivity. }
  congruence.
Qed.

(** X9: Selection invents no file and repeats none: the result is no longer
    than what was found, and has no duplicate when what was found has
    none. *)
Theorem select_files_no_duplicates (found : list Path) (excludes : option (list string)) :
  length (select_files found excludes) ≤ length found ∧
  (NoDup found → NoDup (select_files found excludes)).
Proof.
  split.
  - rewrite select_files_perm. apply length_filter.
  - intros Hnd. rewrite select_files_perm. now apply NoDup_filter.
Qed.

(** X10: A negative limit cuts files off the end: [-k] drops the last [k]
    files, all of them when there are no more than [k]. *)
Theorem negative_limit_drops_last_files (n : Z) (files : list Path) :
  (n < 0)%Z →
  ∃ dropped,
    files = apply_limit (Some n) files ++ dropped ∧
    length dropped = Nat.min (Z.to_nat (- n)) (length files).
Proof.
  intros Hn. unfold apply_limit, slice_to.
  destruct (n =? 0)%Z eqn:E0; [apply Z.eqb_eq in E0; lia |].
  destruct (0 <=? n)%Z eqn:E1; [apply Z.leb_le in E1; lia |].
  exists (drop (length files - Z.to_nat (- n)) files).
  split; [now rewrite take_drop |]. rewrite length_drop. lia.
Qed.


End SelectionMore.

Section EnvFacts.
Import BatchCache.

Lemma contains_char_cons (c a : ascii) (s : string) :
  PyStr.contains (String c "") (String a s) =
  Ascii.eqb c a || PyStr.contains (String c "") s.
Proof. simpl. now rewrite andb_true_r. Qed.

Lemma split_first_Some (sep : ascii) (s a b : string) :
  PyStr.split_first sep s = Some (a, b) ↔
  s = a +:+ String sep b ∧ PyStr.contains (String sep "") a = false.
Proof.
  revert a. induction s as [|c s IH]; intros a.
  - simpl. split; [discriminate |]. intros [H _]. destruct a; discriminate.
  - cbn [PyStr.split_first]. destruct (Ascii.eqb c sep) eqn:E.
    + apply Ascii.eqb_eq in E. subst c. split.
      * intros [= <- <-]. split; reflexivity.
      * intros [H Hc]. destruct a as [|x a].
        -- rewrite append_nil_l in H. now injection H as ->.
        -- rewrite append_cons in H. injection H as <- _.
           rewrite contains_char_cons, Ascii.eqb_refl in Hc. discriminate.
    + split.
      * destruct (PyStr.split_first sep s) as [[a' b']|] eqn:Es; [| discriminate].
        intros [= <- <-]. destruct (proj1 (IH a') eq_refl) as [-> Hc].
        split; [reflexivity |].
        rewrite contains_char_cons, Hc, orb_false_r.
        rewrite Ascii.eqb_sym. exact E.
      * intros [H Hc]. destruct a as [|x a].
        -- rewrite append_nil_l in H. injection H as -> _.
           rewrite Ascii.eqb_refl in E. discriminate.
        -- rewrite append_cons in H. injection H as <- ->.
           rewrite contains_char_cons in Hc. apply orb_false_iff in Hc as [_ Hc].
           assert (Es : PyStr.split_first sep (a +:+ String sep b) = Some (a, b))
             by (apply IH; now split).
           now rewrite Es.
Qed.

(** X12: The grammar of a line of the [.env] file: a line gives the variable
    [k] the value [v] exactly when, stripped, it does not start with "#"
    and reads [key=value] with no "=" in [key], [k] and [v] being [key]
    and [value] stripped. So the value may hold "=" signs, and comments,
    blank lines and lines without "=" give nothing. *)
Theorem env_line_grammar (line k v : string) :
  parse_env_line line = Some (k, v) ↔
  ∃ key value,
    PyStr.strip line = key +:+ "=" +:+ value ∧
    PyStr.contains "=" key = false ∧
    PyStr.startswith "#" (PyStr.strip line) = false ∧
    k = PyStr.strip key ∧ v = PyStr.strip value.
Proof.
  unfold parse_env_line. split.
  - destruct (PyStr.truthy (PyStr.strip line)); [| discriminate].
    destruct (PyStr.startswith "#" (PyStr.strip line)) eqn:Hh; [discriminate |].
    simpl. destruct (PyStr.contains "=" (PyStr.strip line)); [| discriminate].
    destruct (PyStr.split_first "=" (PyStr.strip line)) as [[key value]|] eqn:Es;
      [| discriminate].
    intros [= <- <-]. apply split_first_Some in Es as [Hs Hc].
    exists key, value. repeat split; assumption.
  - intros (key & value & Hs & Hc & Hh & -> & ->). rewrite Hh, Hs.
    assert (Ht : PyStr.truthy (key +:+ "=" +:+ value) = true)
      by (destruct key; reflexivity).
    rewrite Ht. simpl.
    assert (Hin : PyStr.contains "=" (key +:+ "=" +:+ value) = true)
      by (apply contains_spec; now exists key, value).
    rewrite Hin.
    assert (Es : PyStr.split_first "=" (key +:+ "=" +:+ value) = Some (key, value))
      by (apply split_first_Some; now split).
    now rewrite Es.
Qed.

Lemma env_fold_unassigned (k : string) (lines : list string) (env : gmap string string) :
  (∀ l, l ∈ lines → ∀ v, parse_env_line l ≠ Some (k, v)) →
  fold_left env_line lines env !! k = env !! k.
Proof.
  revert env. induction lines as [|l lines IH]; intros env H; [reflexivity |].
  simpl. rewrite IH by (intros l' Hl'; apply H; now right).
  unfold env_line. destruct (parse_env_line l) as [[k' v']|] eqn:E; [| reflexivity].
  apply lookup_insert_ne. intros ->. apply (H l (list_elem_of_here _ _) v'), E.
Qed.

Lemma load_env_vars_lookup (environ : gmap string string) (lines : list string)
      (k : string) :
  load_env_vars environ lines !! k =
  match fold_left env_line lines environ !! k with
  | Some v => Some v
  | None => if decide (k = "DATABASE_URL") then Some "sqlite:data/rustassistant.db"
            else None
  end.
Proof.
  unfold load_env_vars.
  destruct (fold_left env_line lines environ !! "DATABASE_URL") as [d|] eqn:Ed.
  - destruct (fold_left env_line lines environ !! k) as [v|] eqn:Ek; [reflexivity |].
    destruct (decide (k = "DATABASE_URL")) as [-> | Hne]; [congruence | reflexivity].
  - destruct (decide (k = "DATABASE_URL")) as [-> | Hne].
    + now rewrite Ed, lookup_insert_eq.
    + rewrite lookup_insert_ne by congruence.
      now destruct (fold_left env_line lines environ !! k).
Qed.

(** X13: The last line of the file that sets a variable decides its value,
    whatever the environment and the lines before held for it. *)
Theorem env_last_assignment_wins
  (environ : gmap string string) (before after : list string) (line k v : string) :
  parse_env_line line = Some (k, v) →
  (∀ l, l ∈ after → ∀ v', parse_env_line l ≠ Some (k, v')) →
  load_env_vars environ (before ++ line :: after) !! k = Some v.
Proof.
  intros Hl Hafter. rewrite load_env_vars_lookup, fold_left_app. simpl.
  rewrite env_fold_unassigned by exact Hafter.
  unfold env_line at 1. rewrite Hl. now rewrite lookup_insert_eq.
Qed.

(** X14: [DATABASE_URL] is always set in what [load_env] returns; and a
    variable that no line of the file sets keeps the value of the
    environment, [DATABASE_URL] getting the default
    "sqlite:data/rustassistant.db" when the environment has none. *)
Theorem env_defaults (environ : gmap string string) (lines : list string) :
  is_Some (load_env_vars environ lines !! "DATABASE_URL") ∧
  ∀ k, (∀ l, l ∈ lines → ∀ v, parse_env_line l ≠ Some (k, v)) →
       load_env_vars environ lines !! k =
       if decide (k = "DATABASE_URL")
       then Some (default "sqlite:data/rustassistant.db" (environ !! k))
       else environ !! k.
Proof.
  split.
  - rewrite load_env_vars_lookup.
    destruct (fold_left env_line lines environ !! "DATABASE_URL"); [eauto |].
    rewrite decide_True by reflexivity. eauto.
  - intros k Hk. rewrite load_env_vars_lookup, env_fold_unassigned by exact Hk.
    destruct (environ !! k); destruct (decide (k = "DATABASE_URL")); reflexivity.
Qed.

End EnvFacts.

(** * Further properties of repo_manager.py *)

Section StoreInvariants.
Import RepoManager.

Lemma count_path_zero (store : Store) (p : string) :
  count_path store p = 0 ↔ p ∉ map path store.
Proof.
  unfold count_path. induction store as [|r store IH]; simpl.
  - split; [intros _ H; now apply elem_of_nil in H | reflexivity].
  - rewrite elem_of_cons. destruct (String.eqb (path r) p) eqn:E; simpl.
    + apply String.eqb_eq in E. split; [discriminate |]. intros H. destruct H. now left.
    + apply String.eqb_neq in E. rewrite IH. split; [| tauto].
      intros H [-> | H']; [now apply E | now apply H].
Qed.

(** The two ways [add_repo] ends: the row is appended, the path being
    new, or the table is left as it is. *)
Lemma add_repo_cases (store : Store) (p n : string) (env : AddEnv) :
  (∃ log, add_repo store p n env = (true, log, store ++ [new_row p n env]) ∧
          count_path store p = 0 ∧ insert_error env = None) ∨
  (∃ log, add_repo store p n env = (false, log, store)).
Proof.
  assert (H : ∀ l,
    (∃ log, add_checked store p n env l = (true, log, store ++ [new_row p n env]) ∧
            count_path store p = 0 ∧ insert_error env = None) ∨
    (∃ log, add_checked store p n env l = (false, log, store))).
  { intros l. unfold add_checked. destruct (0 <? count_path store p) eqn:E.
    - right. eauto.
    - apply Nat.ltb_ge in E. destruct (insert_error env) eqn:Ei.
      + right. eauto.
      + left. eexists. split; [reflexivity |]. split; [lia | reflexivity]. }
  unfold add_repo. destruct (fs_exists env); simpl; [apply H |].
  destruct (String.eqb (PyStr.lower (answer env)) "y"); simpl; [apply H |].
  right. eauto.
Qed.

Lemma set_scan_paths (store : Store) (n : string) (f : Repository → Repository) :
  (∀ r, path (f r) = path r) →
  map path (map (λ r, if String.eqb (name r) n then f r else r) store) = map path store.
Proof.
  intros Hf. induction store as [|r store IH]; simpl; [reflexivity |].
  rewrite IH. f_equal. destruct (String.eqb (name r) n); [apply Hf | reflexivity].
Qed.

Lemma add_repo_unique (store : Store) (p n : string) (env : AddEnv) :
  NoDup (map path store) → NoDup (map path (add_repo store p n env).2).
Proof.
  intros Hnd.
  destruct (add_repo_cases store p n env) as [(log & -> & H0 & _) | (log & ->)];
    simpl; [| exact Hnd].
  rewrite map_app. simpl. apply NoDup_app. split; [exact Hnd |].
  split; [| apply NoDup_singleton].
  intros x Hx Hx'. apply list_elem_of_singleton in Hx'. subst x.
  now apply count_path_zero in H0.
Qed.

Lemma bulk_add_loop_unique (base : string) (entries : list DirEntry)
      (added : nat) (log : list LogLine) (store : Store) :
  NoDup (map path store) →
  NoDup (map path (bulk_add_loop base entries added log store).2).
Proof.
  revert added log store. induction entries as [|e entries IH]; intros added log store Hnd.
  - exact Hnd.
  - simpl. destruct (is_dir e); [| now apply IH].
    pose proof (add_repo_unique store (path_join base (item e)) (item e) (add_env e) Hnd) as H.
    destruct (add_repo store (path_join base (item e)) (item e) (add_env e))
      as [[ok lines] store']. simpl in H. now apply IH.
Qed.

Lemma NoDup_map_filter {A B} (f : A → B) (g : A → bool) (l : list A) :
  NoDup (map f l) → NoDup (map f (List.filter g l)).
Proof.
  induction l as [|a l IH]; simpl; [auto |]. intros H.
  apply NoDup_cons in H as [Ha Hl]. destruct (g a); simpl; [| now apply IH].
  apply NoDup_cons. split; [| now apply IH].
  intros Hin. apply Ha. apply list_elem_of_In, in_map_iff in Hin as (x & Hx & Hin).
  apply list_elem_of_In, in_map_iff. exists x. split; [exact Hx |].
  now apply filter_In in Hin as [Hin _].
Qed.

(** X15: The invariant of the table: when no two rows have the same path,
    none of the operations makes two rows share one. [add_repo] and the
    bulk add append only new paths, enabling and disabling a scan leave
    every path (and the number of rows) as it is, and the cleanup only
    removes rows. *)
Theorem paths_stay_unique (store : Store) :
  NoDup (map path store) →
  (∀ p n env, NoDup (map path (add_repo store p n env).2)) ∧
  (∀ n interval now e, map path (enable_scan store n interval now e).2 = map path store) ∧
  (∀ n now e, map path (disable_scan store n now e).2 = map path store) ∧
  (∀ e, NoDup (map path (cleanup_invalid_repos store e).2)) ∧
  (∀ base found entries,
     NoDup (map path (bulk_add_from_directory store base found entries).2)).
Proof.
  intros Hnd. split; [| split; [| split; [| split]]].
  - intros p n env. now apply add_repo_unique.
  - intros n interval now [e|]; unfold enable_scan; simpl; [reflexivity |].
    destruct (0 <? count_name store n); simpl; now apply set_scan_paths.
  - intros n now [e|]; unfold disable_scan; simpl; [reflexivity |].
    destruct (0 <? count_name store n); simpl;
      now apply (set_scan_paths store n (λ r, set_scan false (scan_interval_minutes r) now r)).
  - intros [e|]; unfold cleanup_invalid_repos; simpl; [exact Hnd |].
    now apply NoDup_map_filter.
  - intros base found entries. unfold bulk_add_from_directory.
    destruct found; simpl; [| exact Hnd]. now apply bulk_add_loop_unique.
Qed.

(** X16: A successful [add_repo] appended one row for a path that was not in
    the table, with auto-scan off; enabling the scan of its name then
    succeeds, and every row of that name is scanned at the interval
    given. *)
Theorem add_then_enable (store store' : Store) (p n : string) (env : AddEnv)
        (log : list LogLine) :
  add_repo store p n env = (true, log, store') →
  store' = store ++ [new_row p n env] ∧
  count_path store p = 0 ∧ count_path store' p = 1 ∧
  auto_scan_enabled (new_row p n env) = false ∧
  ∀ interval now,
    ∃ line store'',
      enable_scan store' n interval now None = (true, [(SUCCESS, line)], store'') ∧
      ∀ r, r ∈ store'' → name r = n →
           auto_scan_enabled r = true ∧ scan_interval_minutes r = interval.
Proof.
  intros Hadd.
  destruct (add_repo_cases store p n env) as [(log' & E & H0 & _) | (log' & E)];
    rewrite E in Hadd; [| discriminate].
  injection Hadd as _ <-.
  split; [reflexivity |]. split; [exact H0 |].
  split; [rewrite count_path_snoc, H0; simpl; now rewrite String.eqb_refl |].
  split; [reflexivity |].
  intros interval now. unfold enable_scan.
  assert (Hc : 0 < count_name (store ++ [new_row p n env]) n).
  { unfold count_name. rewrite List.filter_app, length_app. simpl.
    rewrite String.eqb_refl. simpl. lia. }
  apply Nat.ltb_lt in Hc. rewrite Hc. eexists _, _. split; [reflexivity |].
  intros r Hr Hn. apply list_elem_of_In, in_map_iff in Hr as (r0 & Hr0 & _).
  destruct (String.eqb (name r0) n) eqn:E0.
  - subst r. split; reflexivity.
  - subst r. apply String.eqb_neq in E0. contradiction.
Qed.

End StoreInvariants.

Section ScanSwitchFacts.
Import RepoManager.






End ScanSwitchFacts.

Section ListingFacts.
Import RepoManager.

Lemma local_prefix_not_http (s : string) :
  PyStr.startswith "/home/" s = true ∨ PyStr.startswith "~/" s = true →
  PyStr.startswith "http" s = false.
Proof.
  destruct s as [|c s]; [reflexivity |]. cbn [PyStr.startswith].
  intros [H | H]; apply andb_true_iff in H as [H _];
    apply Ascii.eqb_eq in H; subst c; reflexivity.
Qed.

Lemma listed_not_http (a : bool) (r : Repository) :
  listed a r = true → like_prefix "http" (path r) = false.
Proof.
  unfold listed, is_local, like_prefix. intros H. apply local_prefix_not_http.
  change (PyStr.lower "/home/") with "/home/" in H.
  change (PyStr.lower "~/") with "~/" in H.
  destruct a; apply orb_true_iff in H as [H | H]; auto.
  apply andb_true_iff in H as [H _]. auto.
Qed.

Lemma filter_filter_implied {A} (f g : A → bool) (l : list A) :
  (∀ x, f x = true → g x = true) →
  List.filter f (List.filter g l) = List.filter f l.
Proof.
  intros H. induction l as [|x l IH]; simpl; [reflexivity |].
  destruct (g x) eqn:Eg; simpl.
  - now rewrite IH.
  - destruct (f x) eqn:Ef; [apply H in Ef; congruence | exact IH].
Qed.

Lemma filter_length_bound {A} (g : A → bool) (l : list A) :
  length (List.filter g l) ≤ length l.
Proof.
  induction l as [|x l IH]; simpl; [lia |]. destruct (g x); simpl; lia.
Qed.

Lemma filter_all {A} (g : A → bool) (l : list A) :
  (∀ x, In x l → g x = true) → List.filter g l = l.
Proof.
  induction l as [|x l IH]; simpl; [reflexivity |]. intros H.
  rewrite (H x) by now left. f_equal. apply IH. intros y Hy. apply H. now right.
Qed.

(** X19: The cleanup, the database answering: the count returned is the
    number of rows removed; the rows kept are exactly those whose path
    does not start with "http", in any case of the letters; a second
    cleanup removes nothing and logs nothing; and no repository that
    [list_repos] shows or [get_stats] counts is ever removed. *)
Theorem cleanup_removes_only_urls (store : Store) :
  let c := cleanup_invalid_repos store None in
  c.1.1 + length c.2 = length store ∧
  (∀ r, r ∈ c.2 ↔ r ∈ store ∧ like_prefix "http" (path r) = false) ∧
  (c.1.2 = [] ↔ c.1.1 = 0) ∧
  cleanup_invalid_repos c.2 None = (0, [], c.2) ∧
  (∀ a, list_repos c.2 a = list_repos store a) ∧
  get_stats c.2 = get_stats store.
Proof.
  unfold cleanup_invalid_repos. simpl.
  set (keep := λ r : Repository, negb (like_prefix "http" (path r))).
  pose proof (filter_length_bound keep store) as Hle.
  split; [lia |]. split; [| split; [| split; [| split]]].
  - intros r. rewrite !list_elem_of_In, filter_In. unfold keep.
    rewrite negb_true_iff. reflexivity.
  - destruct (0 <? length store - length (List.filter keep store)) eqn:E.
    + apply Nat.ltb_lt in E. split; [discriminate | lia].
    + apply Nat.ltb_ge in E. split; [lia | reflexivity].
  - rewrite (filter_all keep (List.filter keep store))
      by (intros x Hx; now apply filter_In in Hx).
    now rewrite Nat.sub_diag.
  - intros a. unfold list_repos. f_equal. apply filter_filter_implied.
    intros x Hx. unfold keep. now rewrite (listed_not_http a x Hx).
  - unfold get_stats. rewrite filter_filter_implied; [reflexivity |].
    intros x Hx. unfold keep. now rewrite (listed_not_http false x Hx).
Qed.

#[global] Instance name_le_total : Total name_le.
Proof.
  intros r1 r2. unfold name_le.
  rewrite (cmp_opp (cmp:=str_compare) (name r1) (name r2)).
  destruct (str_compare (name r1) (name r2)); simpl; [left | left | right]; congruence.
Qed.

(** X20: [list_repos] returns, sorted by name, the rows of the table that
    pass its filter. Without [active_only] these are the rows with a path
    like "/home/..." or "~/...". With it, the status is only asked of the
    "~/" rows: a repository under "/home/" is listed whatever its status,
    because the condition on the status is appended after an [OR]. *)
Theorem list_repos_filter (store : Store) (active_only : bool) :
  (∀ r, r ∈ list_repos store active_only ↔ r ∈ store ∧ listed active_only r = true) ∧
  Sorted name_le (list_repos store active_only) ∧
  (∀ r, r ∈ list_repos store false ↔
        r ∈ store ∧ (like_prefix "/home/" (path r) = true ∨
                     like_prefix "~/" (path r) = true)) ∧
  (∀ r, r ∈ list_repos store true ↔
        r ∈ store ∧ (like_prefix "/home/" (path r) = true ∨
                     (like_prefix "~/" (path r) = true ∧ status r = "active"))) ∧
  (∀ r, r ∈ list_repos store true → r ∈ list_repos store false).
Proof.
  assert (H : ∀ a r, r ∈ list_repos store a ↔ r ∈ store ∧ listed a r = true).
  { intros a r. unfold list_repos. rewrite merge_sort_Permutation.
    now rewrite !list_elem_of_In, filter_In. }
  assert (Hf : ∀ r, listed false r = true ↔
                    like_prefix "/home/" (path r) = true ∨
                    like_prefix "~/" (path r) = true).
  { intros r. unfold listed, is_local. apply orb_true_iff. }
  assert (Ht : ∀ r, listed true r = true ↔
                    like_prefix "/home/" (path r) = true ∨
                    (like_prefix "~/" (path r) = true ∧ status r = "active")).
  { intros r. unfold listed. now rewrite orb_true_iff, andb_true_iff, String.eqb_eq. }
  split; [apply H |]. split; [apply Sorted_merge_sort, _ |].
  split; [intros r; now rewrite H, Hf |]. split; [intros r; now rewrite H, Ht |].
  intros r. rewrite !H, Hf, Ht. tauto.
Qed.

Lemma sum_case_bound (cond : Repository → bool) (rows : list Repository) :
  (sum_case cond rows = None ↔ length rows = 0) ∧
  ∀ k, sum_case cond rows = Some k → k ≤ length rows.
Proof.
  destruct rows as [|r rows].
  - simpl. split; [tauto | discriminate].
  - split; [split; discriminate |]. intros k [= <-].
    apply (filter_length_bound cond (r :: rows)).
Qed.

(** X21: [get_stats] counts the repositories [list_repos] shows; with none to
    count, the two sums are SQL's [NULL] (Python's [None]), not 0;
    otherwise neither exceeds the total. *)
Theorem get_stats_counts_listed (store : Store) :
  let st := get_stats store in
  total st = length (list_repos store false) ∧
  (scanning st = None ↔ total st = 0) ∧
  (active st = None ↔ total st = 0) ∧
  (∀ k, scanning st = Some k → k ≤ total st) ∧
  (∀ k, active st = Some k → k ≤ total st).
Proof.
  unfold get_stats. simpl.
  split; [unfold list_repos; now rewrite merge_sort_Permutation |].
  split; [apply sum_case_bound |]. split; [apply sum_case_bound |].
  split; apply sum_case_bound.
Qed.

End ListingFacts.

Section QueueFacts.
Import RepoManager.

#[global] Instance queue_le_total : Total queue_le.
Proof. intros a b. unfold queue_le. lia. Qed.

#[global] Instance queue_le_trans : Transitive queue_le.
Proof. intros a b c. unfold queue_le. lia. Qed.




Lemma summary_label_cases (p : Z) :
  ((1 ≤ p ≤ 4)%Z → summary_label p = Some (queue_label p)) ∧
  ((5 ≤ p)%Z → summary_label p = Some "LOW" ∧ queue_label p = "UNKNOWN") ∧
  ((-3 ≤ p ≤ 0)%Z →
     queue_label p = "UNKNOWN" ∧
     summary_label p = priority_labels !! Z.to_nat (p + 3)) ∧
  ((p ≤ -4)%Z → summary_label p = None ∧ queue_label p = "UNKNOWN") ∧
  ((-3 ≤ p)%Z → is_Some (summary_label p)).
Proof.
  assert (Hhi : (4 ≤ p)%Z → summary_label p = Some "LOW").
  { intros H. unfold summary_label. rewrite Z.min_r by lia. reflexivity. }
  assert (Hq : (p ≤ 0 ∨ 5 ≤ p)%Z → queue_label p = "UNKNOWN").
  { intros H. unfold queue_label.
    destruct (p =? 1)%Z eqn:E1; [apply Z.eqb_eq in E1; lia |].
    destruct (p =? 2)%Z eqn:E2; [apply Z.eqb_eq in E2; lia |].
    destruct (p =? 3)%Z eqn:E3; [apply Z.eqb_eq in E3; lia |].
    destruct (p =? 4)%Z eqn:E4; [apply Z.eqb_eq in E4; lia |]. reflexivity. }
  assert (Hmid : (-3 ≤ p ≤ 3)%Z →
            p = (-3)%Z ∨ p = (-2)%Z ∨ p = (-1)%Z ∨ p = 0%Z ∨ p = 1%Z ∨ p = 2%Z ∨ p = 3%Z)
    by lia.
  split; [| split; [| split; [| split]]].
  - intros H. destruct (Z.eq_dec p 4%Z) as [-> | Hne]; [reflexivity |].
    destruct (Hmid ltac:(lia)) as [-> | [-> | [-> | [-> | [-> | [-> | ->]]]]]];
      try lia; reflexivity.
  - intros H. split; [apply Hhi; lia | apply Hq; lia].
  - intros H. split; [apply Hq; lia |].
    destruct (Hmid ltac:(lia)) as [-> | [-> | [-> | [-> | [-> | [-> | ->]]]]]];
      try lia; reflexivity.
  - intros H. split; [| apply Hq; lia]. unfold summary_label, PyStr.index.
    rewrite Z.min_l by lia.
    destruct (0 <=? p - 1)%Z eqn:E1; [apply Z.leb_le in E1; lia |].
    destruct (- Z.of_nat (length priority_labels) <=? p - 1)%Z eqn:E2;
      [apply Z.leb_le in E2; simpl in E2; lia | reflexivity].
  - intros H. destruct (Z_le_gt_dec 4%Z p) as [H4 | H4]; [rewrite Hhi by lia; eauto |].
    destruct (Hmid ltac:(lia)) as [-> | [-> | [-> | [-> | [-> | [-> | ->]]]]]];
      (eexists; reflexivity).
Qed.

(** X23: The two labels of a priority. For 1 to 4 the summary and the queue
    listing agree. From 5 on the summary says "LOW" where the listing
    says "UNKNOWN". For 0 down to -3 the summary takes a label counted
    from the end of its list ("LOW" for 0, then "MEDIUM", "HIGH",
    "CRITICAL") where the listing says "UNKNOWN"; and for -4 or less the
    summary raises [IndexError]. *)
Theorem priority_labels_compared (p : Z) :
  ((1 ≤ p ≤ 4)%Z → summary_label p = Some (queue_label p)) ∧
  ((5 ≤ p)%Z → summary_label p = Some "LOW" ∧ queue_label p = "UNKNOWN") ∧
  ((-3 ≤ p ≤ 0)%Z →
     queue_label p = "UNKNOWN" ∧
     summary_label p = priority_labels !! Z.to_nat (p + 3)) ∧
  ((p ≤ -4)%Z → summary_label p = None ∧ queue_label p = "UNKNOWN") ∧
  ((-3 ≤ p)%Z → is_Some (summary_label p)).
Proof. exact (summary_label_cases p). Qed.





End QueueFacts.

Section BulkAddFacts.
Import RepoManager.

Lemma bulk_add_loop_spec (base : string) (entries : list DirEntry)
      (added : nat) (log : list LogLine) (store : Store) :
  let b := bulk_add_loop base entries added log store in
  length b.2 + added = length store + b.1.1 ∧
  store `prefix_of` b.2 ∧
  b.1.1 ≤ added + length (List.filter is_dir entries) ∧
  ∀ r, r ∈ b.2 →
       r ∈ store ∨
       ∃ e, e ∈ entries ∧ is_dir e = true ∧
            path r = path_join base (item e) ∧ name r = item e.
Proof.
  revert added log store.
  induction entries as [|e entries IH]; intros added log store; simpl.
  - split; [lia |]. split; [reflexivity |]. split; [lia | auto].
  - destruct (is_dir e) eqn:Ed.
    + destruct (add_repo_cases store (path_join base (item e)) (item e) (add_env e))
        as [(lines & -> & _ & _) | (lines & ->)]; simpl.
      * destruct (IH (added + 1) (log ++ lines)
                    (store ++ [new_row (path_join base (item e)) (item e) (add_env e)]))
          as (H1 & H2 & H3 & H4).
        rewrite length_app in H1. simpl in H1.
        split; [lia |]. split; [| split; [lia |]].
        -- etransitivity; [| exact H2]. now apply prefix_app_r.
        -- intros r Hr. apply H4 in Hr as [Hr | (e' & He' & Hr)].
           ++ apply elem_of_app in Hr as [Hr | Hr]; [now left |].
              apply list_elem_of_singleton in Hr. subst r. right. exists e.
              split; [apply list_elem_of_here |]. repeat split; assumption.
           ++ right. exists e'. split; [now apply list_elem_of_further | exact Hr].
      * destruct (IH added (log ++ lines) store) as (H1 & H2 & H3 & H4).
        split; [lia |]. split; [exact H2 |]. split; [lia |].
        intros r Hr. apply H4 in Hr as [Hr | (e' & He' & Hr)]; [now left |].
        right. exists e'. split; [now apply list_elem_of_further | exact Hr].
    + destruct (IH added log store) as (H1 & H2 & H3 & H4).
      split; [lia |]. split; [exact H2 |]. split; [lia |].
      intros r Hr. apply H4 in Hr as [Hr | (e' & He' & Hr)]; [now left |].
      right. exists e'. split; [now apply list_elem_of_further | exact Hr].
Qed.

(** X25: The bulk add only appends rows: the table before is a prefix of the
    table after, the number returned is the number of rows gained, it is
    at most the number of directories among the entries, and every new
    row is a directory of the base directory, named after it. When the
    base directory does not exist, nothing is added and the error is
    logged. *)
Theorem bulk_add_only_appends_directories
  (store : Store) (base : string) (found : bool) (entries : list DirEntry) :
  let b := bulk_add_from_directory store base found entries in
  length b.2 = length store + b.1.1 ∧
  store `prefix_of` b.2 ∧
  b.1.1 ≤ length (List.filter is_dir entries) ∧
  (found = false → b = (0, [(ERROR, "Directory not found: " +:+ base)], store)) ∧
  ∀ r, r ∈ b.2 →
       r ∈ store ∨
       ∃ e, e ∈ entries ∧ is_dir e = true ∧
            path r = path_join base (item e) ∧ name r = item e.
Proof.
  unfold bulk_add_from_directory. destruct found; simpl.
  - destruct (bulk_add_loop_spec base entries 0 [] store) as (H1 & H2 & H3 & H4).
    split; [lia |]. split; [exact H2 |]. split; [lia |]. split; [discriminate | exact H4].
  - split; [lia |]. split; [reflexivity |]. split; [lia |]. split; [reflexivity | auto].
Qed.

End BulkAddFacts.

(** * The further properties at work *)

Section MoreScenarios.
Import BatchCache.

(** The repository is not there: exit 1 after one printed line. *)
Lemma failed_check_exits_before_any_command_witness :
  preconditions (Demo.os_missing Demo.repo []) Demo.script
    (parse_args Demo.repo []) (world Demo.start) = false ∧
  ∃ lines s1,
    main (Demo.os_missing Demo.repo []) Demo.script (parse_args Demo.repo []) Demo.start =
      (Exit 1, s1) ∧
    world s1 = world Demo.start ∧
    log s1 = log Demo.start ++ map Print lines ∧
    lines ≠ [].
Proof.
  split; [reflexivity |].
  apply (failed_check_exits_before_any_command (Demo.os_missing Demo.repo [])
           Demo.script (parse_args Demo.repo []) Demo.start).
  reflexivity.
Defined.

(** The cache directory is not there: it is initialised first. *)
Lemma cache_init_only_when_missing_witness :
  let os := Demo.os_missing (PyPath.child Demo.repo ".rustassistant") [] in
  preconditions os Demo.script (parse_args Demo.repo []) (world Demo.start) = true ∧
  ∃ files s1,
    prepare os Demo.script (parse_args Demo.repo []) Demo.start =
      (Done (binary_path Demo.script, Demo.repo, files), s1) ∧
    log s1 = [Spawn [PyPath.str (binary_path Demo.script); "cache"; "init"; "--path";
                     PyPath.str Demo.repo]].
Proof.
  split; [reflexivity |].
  destruct (cache_init_only_when_missing
              (Demo.os_missing (PyPath.child Demo.repo ".rustassistant") [])
              Demo.script (parse_args Demo.repo []) Demo.start eq_refl)
    as (files & s1 & Hp & _ & Hinit).
  exists files, s1. split; [exact Hp |]. now destruct (Hinit eq_refl) as [-> _].
Defined.

Lemma no_commit_no_git_witness :
  commit (parse_args Demo.repo [OptLimit 1]) = false ∧
  ∃ stats s1 o s',
    dispatch (Demo.os []) (binary_path Demo.script) Demo.repo [Demo.lib_rs]
      new_stats Demo.start = (Done stats, s1) ∧
    process (Demo.os []) (parse_args Demo.repo [OptLimit 1]) (binary_path Demo.script)
      Demo.repo [Demo.lib_rs] Demo.start = (o, s') ∧
    log s' = log Demo.start ++
             quiet_trace (binary_path Demo.script) Demo.repo [Demo.lib_rs] stats.
Proof.
  split; [reflexivity |].
  apply (no_commit_no_git (Demo.os []) (parse_args Demo.repo [OptLimit 1])
           (binary_path Demo.script) Demo.repo [Demo.lib_rs] Demo.start).
  reflexivity.
Defined.

Lemma negative_limit_drops_last_files_witness :
  (-1 < 0)%Z ∧
  ∃ dropped,
    Demo.found = apply_limit (Some (-1)%Z) Demo.found ++ dropped ∧
    length dropped = Nat.min (Z.to_nat (- -1)) (length Demo.found).
Proof.
  split; [lia |]. apply (negative_limit_drops_last_files (-1) Demo.found). lia.
Defined.

Lemma empty_pattern_excludes_everything_witness :
  "" ∈ ["/target/"; ""] ∧ select_files Demo.found (Some ["/target/"; ""]) = [].
Proof.
  assert (H : "" ∈ ["/target/"; ""]) by (apply list_elem_of_In; simpl; auto).
  split; [exact H |]. now apply empty_pattern_excludes_everything.
Defined.

(** The third line of the file decides [DATABASE_URL]; its value holds
    an "=" sign. *)
Lemma env_last_assignment_wins_witness :
  parse_env_line ("DATABASE_URL=sqlite:data/ra.db?mode=rwc" +:+ String PyStr.LF "") =
    Some ("DATABASE_URL", "sqlite:data/ra.db?mode=rwc") ∧
  load_env_vars {["DATABASE_URL" := "sqlite:env.db"]} Demo.env_lines !! "DATABASE_URL" =
    Some "sqlite:data/ra.db?mode=rwc".
Proof.
  assert (H : parse_env_line ("DATABASE_URL=sqlite:data/ra.db?mode=rwc" +:+
                              String PyStr.LF "") =
              Some ("DATABASE_URL", "sqlite:data/ra.db?mode=rwc")) by reflexivity.
  split; [exact H |].
  apply (env_last_assignment_wins {["DATABASE_URL" := "sqlite:env.db"]}
           ["# database" +:+ String PyStr.LF "";
            "DATABASE_URL = sqlite:old.db" +:+ String PyStr.LF ""]
           [String PyStr.LF ""; "XAI_API_KEY=abc" +:+ String PyStr.LF ""]
           _ _ _ H).
  intros l Hl v' Hp. rewrite !elem_of_cons, elem_of_nil in Hl.
  destruct Hl as [-> | [-> | []]]; vm_compute in Hp; discriminate.
Defined.

End MoreScenarios.

Section MoreStoreScenarios.
Import RepoManager.

Lemma paths_stay_unique_witness :
  NoDup (map path Demo.store) ∧
  ∀ p n env, NoDup (map path (add_repo Demo.store p n env).2).
Proof.
  assert (H : NoDup (map path Demo.store)) by (apply NoDup_singleton).
  split; [exact H |]. now destruct (paths_stay_unique Demo.store H) as [Ha _].
Defined.

Lemma add_then_enable_witness :
  add_repo Demo.store "/home/dev/audit" "audit" Demo.on_disk =
    (true, [(SUCCESS, "Added repository: audit")],
     Demo.store ++ [new_row "/home/dev/audit" "audit" Demo.on_disk]) ∧
  count_path (Demo.store ++ [new_row "/home/dev/audit" "audit" Demo.on_disk])
    "/home/dev/audit" = 1.
Proof.
  assert (H : add_repo Demo.store "/home/dev/audit" "audit" Demo.on_disk =
              (true, [(SUCCESS, "Added repository: audit")],
               Demo.store ++ [new_row "/home/dev/audit" "audit" Demo.on_disk]))
    by reflexivity.
  split; [exact H |].
  now destruct (add_then_enable _ _ _ _ _ _ H) as (_ & _ & Hc & _).
Defined.

End MoreStoreScenarios.
